(** * Client/web_streaming.py: the capture / publish / broadcast core

    A shallow embedding of [CameraInferenceService] (the shared
    "latest frame" slot with its sequence counter, the capture loop and
    the per-client [frame_generator]) and of [SimpleHandler.do_GET].

    Python integers are unbounded, so [_frame_seq] and the JPEG quality
    are plain [Z].  [bytes] objects are lists of [byte].  The camera
    ([Picamera2.capture_array]) and the encoder ([cv2.imencode]) are
    external: the first is an input of each loop cycle, the second a
    section variable, as is the cv2 constant [IMWRITE_JPEG_QUALITY].
    The encoder may return its flag and buffer or raise; nothing in
    [_loop] catches what it raises, so the loop thread ends there.
    Threads are interleaved step by step; the steps are as fine as the
    lock and the reads of [_stop] make them. *)

From Stdlib Require Import ZArith List String Ascii Bool Lia QArith Sorted.
From Stdlib.Strings Require Import Byte.
From Stdlib Require Import DecimalString.
From stdpp Require Import base option list strings gmap.

Local Open Scope Z_scope.

(** ** Byte strings *)

Abbreviation bytes := (list byte).

(** A Python bytes literal without escapes. *)
Definition b (s : string) : bytes := list_byte_of_string s.

(** The two bytes written [\r\n] in the source. *)
Definition CRLF : bytes := [x0d; x0a].

(** ** Configuration *)

Record AppConfig := {
  capture_interval : Q;
  jpeg_quality : Z;
  host : string;
  port : Z;
  debug : bool
}.

(** The dataclass defaults. *)
Definition AppConfig_default : AppConfig :=
  {| capture_interval := (1 # 2)%Q;
     jpeg_quality := 80;
     host := "0.0.0.0";
     port := 8000;
     debug := false |}.

Definition load_config : AppConfig :=
  {| capture_interval := (3 # 100)%Q;
     jpeg_quality := 80;
     host := "0.0.0.0";
     port := 8000;
     debug := false |}.

(** ** The shared state of [CameraInferenceService]

    [_stop] is the [threading.Event]; [_latest_original] and
    [_frame_seq] are the fields guarded by [_condition].  The threads
    blocked in [_condition.wait] are the generators whose program
    counter is [Waiting] (below). *)

Record Service := {
  config : AppConfig;
  _stop : bool;
  _latest_original : option bytes;
  _frame_seq : Z
}.

(** [__init__] *)
Definition init (cfg : AppConfig) : Service :=
  {| config := cfg;
     _stop := false;
     _latest_original := None;
     _frame_seq := 0 |}.

(** Lines 109-112, the fields: [self._latest_original = buf;
    self._frame_seq += 1]. *)
Definition publish (buf : bytes) (s : Service) : Service :=
  {| config := config s;
     _stop := _stop s;
     _latest_original := Some buf;
     _frame_seq := _frame_seq s + 1 |}.

(** [stop], line 59: [self._stop.set()].  The rest of [stop] joins the
    loop thread and closes the camera; it touches none of the fields
    above and never notifies [_condition]. *)
Definition stop (s : Service) : Service :=
  {| config := config s;
     _stop := true;
     _latest_original := _latest_original s;
     _frame_seq := _frame_seq s |}.

(** ** [frame_generator]

    A generator object is its local variable [last_seq] and the place
    where it stands.  The service it reads is the shared one: it is
    handed to [resume] at every step, never copied into the generator. *)

Inductive GenPc :=
| AtTop          (* about to test line 74 *)
| InCondition    (* holds [_condition], about to test line 76 *)
| Waiting        (* inside [_condition.wait(timeout=1.0)], line 77 *)
| Suspended      (* at the [yield] of line 86 *)
| Exhausted.     (* left the outer loop *)

Record Generator := {
  last_seq : Z;
  pc : GenPc
}.

(** Calling [frame_generator()] runs nothing yet; lines 72-73 set
    [last_seq = -1]. *)
Definition frame_generator : Generator :=
  {| last_seq := -1; pc := AtTop |}.

Definition boundary : bytes := b "--frame".

(** Line 86: [boundary + b"\r\nContent-Type: image/jpeg\r\n\r\n" + frame + b"\r\n"]. *)
Definition chunk_of (frame : bytes) : bytes :=
  boundary ++ (CRLF ++ b "Content-Type: image/jpeg" ++ CRLF ++ CRLF)
           ++ frame ++ CRLF.

(** What one pass through lines 76-82 gives. *)
Inductive Wait :=
| TimedOut                                    (* line 77: goes to wait *)
| StoppedSignal                               (* line 79: break *)
| NewFrame (frame : option bytes) (seq : Z).  (* lines 80-82 *)

(** Lines 76-82 with the two tests of [_stop] kept apart: [stop76] is
    the flag as line 76 reads it, [stop78] as line 78 reads it.
    [_condition] is held throughout, so [_latest_original] and
    [_frame_seq] are those of one state of the service. *)
Definition critical_section_reads
    (s : Service) (stop76 stop78 : bool) (last : Z) : Wait :=
  if (last =? _frame_seq s) && negb stop76 then TimedOut
  else if stop78 then StoppedSignal
  else NewFrame (_latest_original s) (_frame_seq s).

(** Lines 76-82 read against one state of the service. *)
Definition critical_section (s : Service) (last : Z) : Wait :=
  critical_section_reads s (_stop s) (_stop s) last.

(** One step of the generator against the current service.  The result
    is the new generator and the chunk it yields, if it yields. *)
Definition resume (s : Service) (g : Generator) : Generator * option bytes :=
  match pc g with
  | AtTop =>
      if _stop s then ({| last_seq := last_seq g; pc := Exhausted |}, None)
      else ({| last_seq := last_seq g; pc := InCondition |}, None)
  | InCondition =>
      match critical_section s (last_seq g) with
      | TimedOut => ({| last_seq := last_seq g; pc := Waiting |}, None)
      | StoppedSignal => ({| last_seq := last_seq g; pc := Exhausted |}, None)
      | NewFrame None _ => ({| last_seq := last_seq g; pc := AtTop |}, None)
      | NewFrame (Some frame) seq =>
          ({| last_seq := seq; pc := Suspended |}, Some (chunk_of frame))
      end
  | Waiting => (g, None)
  | Suspended => ({| last_seq := last_seq g; pc := AtTop |}, None)
  | Exhausted => (g, None)
  end.

(** [notify_all] or the timeout of line 77: the waiter takes the lock
    again and is back at the test of line 76. *)
Definition wake (g : Generator) : Generator :=
  match pc g with
  | Waiting => {| last_seq := last_seq g; pc := InCondition |}
  | _ => g
  end.

(** ** [SimpleHandler.do_GET] *)

Definition quote : string := String (ascii_of_nat 34) EmptyString.
Definition LF : string := String (ascii_of_nat 10) EmptyString.

Definition template_lines : list string :=
  [ "<!doctype html>";
    "<html lang=" +:+ quote +:+ "en" +:+ quote +:+ ">";
    "<head>";
    "  <meta charset=" +:+ quote +:+ "utf-8" +:+ quote +:+ ">";
    "    <title>Live Camera Stream</title>";
    "  <style>";
    "    body { font-family: Arial, sans-serif; margin: 20px; background: #f3f3f3; }";
    "    .wrapper { background: #fff; padding: 16px; border-radius: 8px; box-shadow: 0 2px 6px rgba(0,0,0,0.1); }";
    "    .images { display: grid; grid-template-columns: repeat(auto-fit, minmax(280px, 1fr)); gap: 16px; margin-top: 12px; }";
    "    img { width: 100%; border: 1px solid #ddd; border-radius: 6px; background: #fafafa; min-height: 160px; }";
    "    h1 { margin-bottom: 4px; }";
    "    p { margin: 0; }";
    "  </style>";
    "</head>";
    "<body>";
    "    <div class=" +:+ quote +:+ "wrapper" +:+ quote +:+ ">";
    "    <h1>Camera Monitor</h1>";
    "    <div class=" +:+ quote +:+ "images" +:+ quote +:+ ">";
    "      <div>";
    "        <img id=" +:+ quote +:+ "img-original" +:+ quote
      +:+ " src=" +:+ quote +:+ "/stream" +:+ quote
      +:+ " alt=" +:+ quote +:+ "Original stream" +:+ quote +:+ ">";
    "      </div>";
    "    </div>";
    "  </div>";
    "</body>";
    "</html>" ].

(** The module-level [template]: every line ends in a newline. *)
Definition template : string :=
  fold_right (fun line rest => line +:+ LF +:+ rest) EmptyString template_lines.

(** The [<img>] element of the page. *)
Definition img_element : string :=
  "<img id=" +:+ quote +:+ "img-original" +:+ quote
  +:+ " src=" +:+ quote +:+ "/stream" +:+ quote
  +:+ " alt=" +:+ quote +:+ "Original stream" +:+ quote +:+ ">".

(** What the handler leaves to be written after the headers. *)
Inductive Body :=
| NoBody                       (* nothing written *)
| Content (data : bytes)       (* one [wfile.write] *)
| Stream (g : Generator).      (* the chunks of a new generator *)

Record Response := {
  status : Z;
  headers : list (string * string);   (* the [send_header] calls, in order *)
  body : Body
}.

(** [str(len(body))] *)
Definition str_len (data : bytes) : string :=
  NilZero.string_of_uint (Nat.to_uint (length data)).

(** [do_GET].  [svc] is [globals().get("service")]; [path] is
    [urlparse(self.path).path]. *)
Definition do_GET (svc : option Service) (path : string) : Response :=
  if String.eqb path "/" then
    let body := b template in
    {| status := 200;
       headers := [("Content-Type", "text/html; charset=utf-8");
                   ("Content-Length", str_len body)];
       body := Content body |}
  else if String.eqb path "/stream" then
    {| status := 200;
       headers := [("Content-Type", "multipart/x-mixed-replace; boundary=frame")];
       body := match svc with
               | None => NoBody
               | Some _ => Stream frame_generator
               end |}
  else
    {| status := 404; headers := []; body := NoBody |}.

(** ** [_loop] and the running system *)

(** What [picam2.capture_array()] does in one cycle. *)
Inductive Capture (RawFrame : Type) :=
| CaptureRaises                             (* line 95 *)
| CaptureReturns (bgr : option RawFrame).   (* [None] is line 100 *)
Arguments CaptureRaises {RawFrame}.
Arguments CaptureReturns {RawFrame} bgr.

(** Where the loop thread stands. *)
Inductive LoopPc :=
| LoopTop        (* about to test line 92 *)
| LoopInCycle    (* passed line 92, about to capture *)
| LoopExited.    (* the thread has ended: line 92 false, or an exception *)

(** One [GET /stream] being served: the generator, the chunks written
    to [wfile] so far, and whether the handler is still in its [for]. *)
Record Session := {
  gen : Generator;
  wfile : list bytes;
  serving : bool
}.

Record System := {
  service : Service;
  loop_pc : LoopPc;
  sessions : gmap nat Session
}.

Section Loop.

(** The array type of a captured frame, [cv2.imencode] (extension,
    image, parameters; the buffer already as [bytes]; [None] when it
    raises) and the cv2 constant [IMWRITE_JPEG_QUALITY]. *)
Variable RawFrame : Type.
Variable imencode : string -> RawFrame -> list Z -> option (bool * bytes).
Variable IMWRITE_JPEG_QUALITY : Z.

(** Line 90, the local [jpeg_quality]. *)
Definition loop_jpeg_quality (cfg : AppConfig) : Z :=
  Z.max 10 (Z.min 95 (jpeg_quality cfg)).

(** Line 91. *)
Definition encode_params (cfg : AppConfig) : list Z :=
  [IMWRITE_JPEG_QUALITY; loop_jpeg_quality cfg].

(** Lines 93-112 of one cycle, the service.  The boolean tells whether
    [notify_all] was called.  The capture is inside the [try] of lines
    93-98; the call of line 104 is not, and when it raises the cycle
    ends there with the service as it was. *)
Definition cycle (c : Capture RawFrame) (s : Service) : Service * bool :=
  match c with
  | CaptureRaises => (s, false)
  | CaptureReturns None => (s, false)
  | CaptureReturns (Some bgr) =>
      match imencode ".jpg" bgr (encode_params (config s)) with
      | Some (ok_orig, orig_buf) =>
          if ok_orig then (publish orig_buf s, true) else (s, false)
      | None => (s, false)
      end
  end.

(** The cycles in which line 104 raises: the exception leaves [_loop]
    and ends the loop thread. *)
Definition cycle_raises (cfg : AppConfig) (c : Capture RawFrame) : bool :=
  match c with
  | CaptureReturns (Some bgr) =>
      match imencode ".jpg" bgr (encode_params cfg) with
      | None => true
      | Some _ => false
      end
  | _ => false
  end.

(** The cycles that end in one of the three [continue]s: the capture
    raised, returned [None], or [imencode] returned a false flag. *)
Definition cycle_fails (cfg : AppConfig) (c : Capture RawFrame) : bool :=
  match c with
  | CaptureRaises => true
  | CaptureReturns None => true
  | CaptureReturns (Some bgr) =>
      match imencode ".jpg" bgr (encode_params cfg) with
      | Some (ok_orig, _) => negb ok_orig
      | None => false
      end
  end.

(** [_loop] run alone against the captures of its successive cycles,
    for as long as captures are supplied: it ends when [_stop] is set
    or line 104 raises. *)
Fixpoint _loop (captures : list (Capture RawFrame)) (s : Service) : Service :=
  match captures with
  | [] => s
  | c :: rest =>
      if _stop s then s
      else if cycle_raises (config s) c then s
      else _loop rest (fst (cycle c s))
  end.

(** The steps of the threads. *)
Inductive Event :=
| LoopCheck                          (* loop thread: line 92 *)
| LoopCycle (c : Capture RawFrame)   (* loop thread: lines 93-115 *)
| Stop                               (* main thread: [service.stop()] *)
| GET (i : nat) (path : string)      (* connection [i]: [do_GET] *)
| Run (i : nat) (write_ok : bool)    (* connection [i]: the [for] advances *)
| Timeout (i : nat).                 (* connection [i]: the wait of line 77 times out *)

(** The steps the loop thread takes for these captures. *)
Definition loop_events (captures : list (Capture RawFrame)) : list Event :=
  flat_map (fun c => [LoopCheck; LoopCycle c]) captures.

Definition notify_all (notified : bool) (ss : gmap nat Session) : gmap nat Session :=
  if notified
  then (fun x => {| gen := wake (gen x); wfile := wfile x; serving := serving x |}) <$> ss
  else ss.

(** Lines 172-176 for one step of the generator: a chunk is written,
    or the write fails and the handler leaves; an exhausted generator
    ends the [for]. *)
Definition run_session (s : Service) (write_ok : bool) (x : Session) : Session :=
  if serving x then
    match resume s (gen x) with
    | (g, Some chunk) =>
        if write_ok
        then {| gen := g; wfile := wfile x ++ [chunk]; serving := true |}
        else {| gen := g; wfile := wfile x; serving := false |}
    | (g, None) =>
        {| gen := g; wfile := wfile x;
           serving := match pc g with Exhausted => false | _ => true end |}
    end
  else x.

Definition step (st : System) (e : Event) : System :=
  match e with
  | LoopCheck =>
      match loop_pc st with
      | LoopTop =>
          {| service := service st;
             loop_pc := if _stop (service st) then LoopExited else LoopInCycle;
             sessions := sessions st |}
      | _ => st
      end
  | LoopCycle c =>
      match loop_pc st with
      | LoopInCycle =>
          let '(s, notified) := cycle c (service st) in
          {| service := s;
             loop_pc := if cycle_raises (config (service st)) c
                        then LoopExited else LoopTop;
             sessions := notify_all notified (sessions st) |}
      | _ => st
      end
  | Stop =>
      {| service := stop (service st);
         loop_pc := loop_pc st;
         sessions := sessions st |}
  | GET i path =>
      match sessions st !! i, body (do_GET (Some (service st)) path) with
      | None, Stream g =>
          {| service := service st;
             loop_pc := loop_pc st;
             sessions := <[i := {| gen := g; wfile := []; serving := true |}]> (sessions st) |}
      | _, _ => st
      end
  | Run i write_ok =>
      {| service := service st;
         loop_pc := loop_pc st;
         sessions := alter (run_session (service st) write_ok) i (sessions st) |}
  | Timeout i =>
      {| service := service st;
         loop_pc := loop_pc st;
         sessions := alter (fun x => {| gen := wake (gen x); wfile := wfile x;
                                        serving := serving x |}) i (sessions st) |}
  end.

Definition run (evs : list Event) (st : System) : System :=
  fold_left step evs st.

(** [main]: the service is created and started, no client yet. *)
Definition boot (cfg : AppConfig) : System :=
  {| service := init cfg; loop_pc := LoopTop; sessions := ∅ |}.

(** Whether event [e] publishes in state [st], and how many publishes
    a run makes. *)
Definition publishes_at (st : System) (e : Event) : bool :=
  match e, loop_pc st with
  | LoopCycle c, LoopInCycle => (cycle c (service st)).2
  | _, _ => false
  end.

Fixpoint publishes (evs : list Event) (st : System) : nat :=
  match evs with
  | [] => 0%nat
  | e :: rest =>
      ((if publishes_at st e then 1 else 0) + publishes rest (step st e))%nat
  end.

(** The frame and sequence number that event [e] hands to a
    connection in state [st], with the connection's number. *)
Definition delivered (st : System) (e : Event) : option (nat * bytes * Z) :=
  match e with
  | Run i _ =>
      match sessions st !! i with
      | Some x =>
          if serving x then
            match pc (gen x), critical_section (service st) (last_seq (gen x)) with
            | InCondition, NewFrame (Some frame) seq => Some (i, frame, seq)
            | _, _ => None
            end
          else None
      | None => None
      end
  | _ => None
  end.

(** The sequence numbers handed to connection [i] along a run. *)
Fixpoint versions (i : nat) (evs : list Event) (st : System) : list Z :=
  match evs with
  | [] => []
  | e :: rest =>
      match delivered st e with
      | Some (j, _, seq) =>
          if decide (j = i) then seq :: versions i rest (step st e)
          else versions i rest (step st e)
      | None => versions i rest (step st e)
      end
  end.

(** The [last_seq] of connection [i]; a connection not yet made
    starts from [-1]. *)
Definition last_of (st : System) (i : nat) : Z :=
  match sessions st !! i with
  | Some x => last_seq (gen x)
  | None => -1
  end.

End Loop.

Arguments cycle {RawFrame} imencode IMWRITE_JPEG_QUALITY c s.
Arguments _loop {RawFrame} imencode IMWRITE_JPEG_QUALITY captures s.
Arguments cycle_fails {RawFrame} imencode IMWRITE_JPEG_QUALITY cfg c.
Arguments cycle_raises {RawFrame} imencode IMWRITE_JPEG_QUALITY cfg c.
Arguments loop_events {RawFrame} captures.
Arguments Event RawFrame : clear implicits.
Arguments LoopCheck {RawFrame}.
Arguments LoopCycle {RawFrame} c.
Arguments Stop {RawFrame}.
Arguments GET {RawFrame} i path.
Arguments Run {RawFrame} i write_ok.
Arguments Timeout {RawFrame} i.
Arguments step {RawFrame} imencode IMWRITE_JPEG_QUALITY st e.
Arguments run {RawFrame} imencode IMWRITE_JPEG_QUALITY evs st.
Arguments delivered {RawFrame} st e.
Arguments publishes_at {RawFrame} imencode IMWRITE_JPEG_QUALITY st e.
Arguments publishes {RawFrame} imencode IMWRITE_JPEG_QUALITY evs st.
Arguments versions {RawFrame} imencode IMWRITE_JPEG_QUALITY i evs st.

(** ** Sample collaborators, for running the model

    Raw frames are byte strings; the sample encoder returns a false
    flag on the empty frame, raises on a frame that begins with [!],
    and otherwise returns the frame behind a first byte that records
    the quality it was asked for. *)

Definition sample_imencode (ext : string) (bgr : bytes) (params : list Z)
    : option (bool * bytes) :=
  match bgr with
  | [] => Some (false, [])
  | x21 :: _ => None
  | _ => Some (true, match Byte.of_N (Z.to_N (nth 1 params 0)) with
                     | Some q => q :: bgr
                     | None => bgr
                     end)
  end.

Definition sample_IMWRITE_JPEG_QUALITY : Z := 1.

Definition frame_A : bytes := b "A".
Definition frame_B : bytes := b "B".
Definition frame_C : bytes := b "C".

(** A frame on which the sample encoder raises. *)
Definition frame_bad : bytes := b "!".

Definition with_quality (q : Z) : AppConfig :=
  {| capture_interval := capture_interval load_config;
     jpeg_quality := q;
     host := host load_config;
     port := port load_config;
     debug := debug load_config |}.

(** A run in which connection 0 is handed frame A, falls behind while
    frames B and C are published, and is back at line 76. *)
Definition slow_consumer_run : list (Event bytes) :=
  [ LoopCheck; LoopCycle (CaptureReturns (Some frame_A));
    GET 0%nat "/stream"; Run 0%nat true; Run 0%nat true;
    LoopCheck; LoopCycle (CaptureReturns (Some frame_B));
    LoopCheck; LoopCycle (CaptureReturns (Some frame_C));
    Run 0%nat true; Run 0%nat true ].

(** A run that leaves connection 0 inside the wait of line 77: it has
    been handed the only frame published and asks again. *)
Definition waiting_run : list (Event bytes) :=
  [ LoopCheck; LoopCycle (CaptureReturns (Some frame_A));
    GET 0%nat "/stream"; Run 0%nat true; Run 0%nat true;
    Run 0%nat true; Run 0%nat true; Run 0%nat true ].

(** One publish, then two connections, both at line 76. *)
Definition two_consumers_run : list (Event bytes) :=
  [ LoopCheck; LoopCycle (CaptureReturns (Some frame_A));
    GET 0%nat "/stream"; GET 1%nat "/stream"; Run 0%nat true; Run 1%nat true ].

(** A connection made while frame A is current, and the publish of
    frame B that follows before the connection's handler has run. *)
Definition connected_at_A : list (Event bytes) :=
  [ LoopCheck; LoopCycle (CaptureReturns (Some frame_A)); GET 0%nat "/stream" ].

Definition then_published_B : list (Event bytes) :=
  [ LoopCheck; LoopCycle (CaptureReturns (Some frame_B)) ].

(** Three failing captures: the camera raises, returns nothing, and
    returns a frame the sample encoder rejects. *)
Definition three_failures : list (Capture bytes) :=
  [ CaptureRaises; CaptureReturns None; CaptureReturns (Some []) ].

(** ** The invariant of the running system *)

(** One chunk of the stream: a frame in its multipart wrapping. *)
Definition is_part (chunk : bytes) : Prop := exists frame, chunk = chunk_of frame.

Record Inv (st : System) : Prop := {
  inv_seq_nonneg : 0 <= _frame_seq (service st);
  inv_absent : _latest_original (service st) = None <-> _frame_seq (service st) = 0;
  inv_last : forall i x, sessions st !! i = Some x ->
      -1 <= last_seq (gen x) <= _frame_seq (service st);
  inv_wfile : forall i x, sessions st !! i = Some x -> Forall is_part (wfile x)
}.

(** ** How far a handler is from the end of its loop

    A measure for the stopped service: 0 when the handler has left its
    [for] loop; no step of any thread raises it, the timeout of a
    pending wait brings it to 2 or less, and from there each step of
    the handler lowers it. *)
Definition rank (x : Session) : nat :=
  if serving x then
    match pc (gen x) with
    | Waiting => 3
    | Suspended => 2
    | _ => 1
    end
  else 0%nat.

(** ** What holds of every connection in a run

    A connection waits only when it has seen the current frame; its
    [last_seq] is the initial -1 or the number of a frame it was
    handed; it was written no more chunks than that number; a handler
    that has left its loop did not leave its generator inside a wait;
    and a handler still in its loop has a generator that is not
    exhausted. *)
Record SessionInv (st : System) : Prop := {
  inv_waiting : forall i x, sessions st !! i = Some x ->
      pc (gen x) = Waiting -> last_seq (gen x) = _frame_seq (service st);
  inv_seen : forall i x, sessions st !! i = Some x ->
      last_seq (gen x) = -1 \/ 1 <= last_seq (gen x);
  inv_count : forall i x, sessions st !! i = Some x ->
      Z.of_nat (length (wfile x)) <= Z.max 0 (last_seq (gen x));
  inv_closed : forall i x, sessions st !! i = Some x ->
      serving x = false -> pc (gen x) <> Waiting;
  inv_serving : forall i x, sessions st !! i = Some x ->
      serving x = true -> pc (gen x) <> Exhausted
}.

(** Whether event [e] is a step of connection [i]. *)
Definition of_connection {RawFrame : Type} (i : nat) (e : Event RawFrame) : bool :=
  match e with
  | GET j _ | Run j _ | Timeout j => bool_decide (j = i)
  | _ => false
  end.

(** * Client/record.py: the recorder

    [CCTVRecorder] keeps an external recording process running inside
    the hours of the day set by [START_HOUR] and [END_HOUR] and removes
    the oldest segment when the disk fills up.  The process, the clock,
    the disk and the directory are the world outside: what they answer
    during one pass of the loop is a [World]; what the recorder does to
    them is a list of [Effect]s.  Exceptions of the calls inside
    [cleanup_disk] are answers [None]. *)

Module CCTVRecorder.

Definition BUFFER_DIR : string := "/home/pi/cctv_buffer".
Definition START_HOUR : Z := 6.
Definition END_HOUR : Z := 17.
Definition DISK_THRESHOLD_PERCENT : Z := 90.

(** [s.endswith(suffix)] *)
Definition endswith (s suffix : string) : bool :=
  if (String.length suffix <=? String.length s)%nat
  then String.eqb (String.substring (String.length s - String.length suffix)
                                    (String.length suffix) s) suffix
  else false.

Record World := {
  hour : Z;                           (* [datetime.now().hour] *)
  new_pid : nat;                      (* the process [Popen] would create *)
  poll : option Z;                    (* [process.poll()]: [None] while it runs *)
  wait_times_out : bool;              (* [process.wait(timeout=5)] raises [TimeoutExpired] *)
  disk_usage : option (Z * Z * Z);    (* total, used, free *)
  listdir : option (list string);     (* the names in [BUFFER_DIR], as listed *)
  getmtime : string -> option Q;      (* of a path *)
  remove_ok : string -> bool          (* [os.remove] of a path does not raise *)
}.

Inductive Effect :=
| Spawn (pid : nat) (args : list string)   (* [subprocess.Popen(CMD_ARGS)] *)
| Terminate (pid : nat)                    (* [process.terminate()] *)
| Kill (pid : nat)                         (* [process.kill()] *)
| Remove (path : string).                  (* [os.remove(path)] done *)

(** The fields of the object; [process] is the [Popen] object, known
    by the process it stands for. *)
Record Recorder := {
  process : option nat;
  running : bool
}.

(** [__init__] *)
Definition init : Recorder := {| process := None; running := true |}.

(** How [cleanup_disk] ends. *)
Inductive Cleanup :=
| Below                      (* line 85 false: nothing to do *)
| NoFiles                    (* line 93: [return] *)
| Removed (path : string)    (* line 97 *)
| Failed.                    (* an exception, caught at line 102 *)

(** [min(first :: rest, key=...)] on items with their keys: the
    running best is replaced only by an item whose key is smaller. *)
Definition min_by_key (first : string * Q) (rest : list (string * Q)) : string * Q :=
  fold_left (fun best item => if negb (Qle_bool best.2 item.2) then item else best)
            rest first.

Section Recorder.

(** The values computed when the module is loaded, [os.path.join], and
    the truth of [(used / total) * 100 >= threshold] in the floating
    point arithmetic of the source, for [total] not 0 (arguments: used,
    total, threshold). *)
Variable HOSTNAME DATE : string.
Variable join : string -> string -> string.
Variable usage_percent_ge : Z -> Z -> Z -> bool.

Definition CMD_ARGS : list string :=
  [ "rpicam-vid"; "-n"; "-t"; "0"; "--segment"; "120000"; "--inline";
    "--width"; "1640"; "--height"; "1232"; "--framerate"; "24";
    "--bitrate"; "4000000"; "--profile"; "high"; "-o";
    BUFFER_DIR +:+ "/" +:+ HOSTNAME +:+ "_" +:+ DATE +:+ "_%04d.h264" ].

(** Lines 87-91. *)
Definition candidates (names : list string) : list string :=
  map (join BUFFER_DIR) (List.filter (fun f => endswith f ".h264") names).

(** The keys [min] asks for, in order; the first that raises ends it. *)
Fixpoint with_mtimes (w : World) (files : list string) : option (list (string * Q)) :=
  match files with
  | [] => Some []
  | f :: rest =>
      match getmtime w f, with_mtimes w rest with
      | Some m, Some keyed => Some ((f, m) :: keyed)
      | _, _ => None
      end
  end.

Definition cleanup_disk (w : World) : Cleanup :=
  match disk_usage w with
  | None => Failed
  | Some (total, used, free) =>
      if total =? 0 then Failed
      else if usage_percent_ge used total DISK_THRESHOLD_PERCENT then
        match listdir w with
        | None => Failed
        | Some names =>
            match candidates names with
            | [] => NoFiles
            | file :: files =>
                match getmtime w file, with_mtimes w files with
                | Some mtime, Some keyed =>
                    let oldest_file := (min_by_key (file, mtime) keyed).1 in
                    if remove_ok w oldest_file then Removed oldest_file else Failed
                | _, _ => Failed
                end
            end
        end
      else Below
  end.

Definition start_camera (w : World) (r : Recorder) : Recorder * list Effect :=
  match process r with
  | None => ({| process := Some (new_pid w); running := running r |},
             [Spawn (new_pid w) CMD_ARGS])
  | Some _ => (r, [])
  end.

Definition stop_camera (w : World) (r : Recorder) : Recorder * list Effect :=
  match process r with
  | Some pid => ({| process := None; running := running r |},
                 Terminate pid :: (if wait_times_out w then [Kill pid] else []))
  | None => (r, [])
  end.

(** The signal handler. *)
Definition shutdown (w : World) (r : Recorder) : Recorder * list Effect :=
  let '(r', effects) := stop_camera w r in
  ({| process := process r'; running := false |}, effects).

(** Lines 112-125. *)
Definition check_window (w : World) (r : Recorder) : Recorder * list Effect :=
  if (START_HOUR <=? hour w) && (hour w <=? END_HOUR) then
    match process r with
    | None => start_camera w r
    | Some _ =>
        match poll w with
        | Some _ => ({| process := None; running := running r |}, [])
        | None => (r, [])
        end
    end
  else
    match process r with
    | Some _ => stop_camera w r
    | None => (r, [])
    end.

(** One pass of the body of the loop, lines 109-132. *)
Definition pass (w : World) (r : Recorder) : Recorder * list Effect :=
  let '(r', effects) := check_window w r in
  (r', effects ++ match process r' with
                  | Some _ => match cleanup_disk w with
                              | Removed path => [Remove path]
                              | _ => []
                              end
                  | None => []
                  end).

(** What the loop meets while it is alive: the test of line 108 and a
    pass of the body; a signal during the sleep of line 132; or a
    signal right after the test of line 108, before the body. *)
Inductive Input :=
| Pass (w : World)
| Signal (w : World)
| SignalThenPass (w0 w : World).

(** [run], for as long as inputs are supplied. *)
Fixpoint run (inputs : list Input) (r : Recorder) : Recorder * list Effect :=
  match inputs with
  | [] => (r, [])
  | input :: rest =>
      if running r then
        let '(r1, effects1) :=
          match input with
          | Pass w => pass w r
          | Signal w => shutdown w r
          | SignalThenPass w0 w =>
              let '(r0, effects0) := shutdown w0 r in
              let '(r', effects) := pass w r0 in
              (r', effects0 ++ effects)
          end in
        let '(r2, effects2) := run rest r1 in
        (r2, effects1 ++ effects2)
      else (r, [])
  end.

End Recorder.

End CCTVRecorder.

(** ** A sample world for the recorder

    Paths are joined with a slash; the usage test is the exact
    comparison of [100 * used] with [threshold * total], which is what
    the floating point test gives on the sample numbers.  The disk is
    95% full; of the three segments listed the second and third are the
    oldest, with the same modification time. *)

Definition sample_join (a b' : string) : string := a +:+ "/" +:+ b'.

Definition sample_usage_percent_ge (used total threshold : Z) : bool :=
  threshold * total <=? 100 * used.

Definition sample_getmtime (path : string) : option Q :=
  if String.eqb path "/home/pi/cctv_buffer/cam_0001.h264" then Some (100 # 1)%Q
  else if String.eqb path "/home/pi/cctv_buffer/cam_0002.h264" then Some (50 # 1)%Q
  else if String.eqb path "/home/pi/cctv_buffer/cam_0003.h264" then Some (100 # 2)%Q
  else if String.eqb path "/home/pi/cctv_buffer/notes.txt" then Some (1 # 1)%Q
  else None.

Definition sample_world (h : Z) (polled : option Z) : CCTVRecorder.World :=
  {| CCTVRecorder.hour := h;
     CCTVRecorder.new_pid := 7;
     CCTVRecorder.poll := polled;
     CCTVRecorder.wait_times_out := true;
     CCTVRecorder.disk_usage := Some (1000, 950, 50);
     CCTVRecorder.listdir :=
       Some ["cam_0001.h264"; "notes.txt"; "cam_0002.h264"; "cam_0003.h264"];
     CCTVRecorder.getmtime := sample_getmtime;
     CCTVRecorder.remove_ok := fun _ => true |}.

(** The same world with only the notes in the directory. *)
Definition sample_world_no_segments : CCTVRecorder.World :=
  {| CCTVRecorder.hour := 12;
     CCTVRecorder.new_pid := 7;
     CCTVRecorder.poll := None;
     CCTVRecorder.wait_times_out := false;
     CCTVRecorder.disk_usage := Some (1000, 950, 50);
     CCTVRecorder.listdir := Some ["notes.txt"];
     CCTVRecorder.getmtime := sample_getmtime;
     CCTVRecorder.remove_ok := fun _ => true |}.

Definition recording (pid : nat) : CCTVRecorder.Recorder :=
  {| CCTVRecorder.process := Some pid; CCTVRecorder.running := true |}.

(** * Properties *)

Section Properties.

Context {RawFrame : Type}.
Variable imencode : string -> RawFrame -> list Z -> option (bool * bytes).
Variable IMWRITE_JPEG_QUALITY : Z.

Local Abbreviation cycle' := (cycle imencode IMWRITE_JPEG_QUALITY).
Local Abbreviation step' := (step imencode IMWRITE_JPEG_QUALITY).
Local Abbreviation run' := (run imencode IMWRITE_JPEG_QUALITY).
Local Abbreviation versions' := (versions imencode IMWRITE_JPEG_QUALITY).
Local Abbreviation loop' := (_loop imencode IMWRITE_JPEG_QUALITY).
Local Abbreviation publishes_at' := (publishes_at imencode IMWRITE_JPEG_QUALITY).
Local Abbreviation publishes' := (publishes imencode IMWRITE_JPEG_QUALITY).
Local Abbreviation cycle_fails' := (cycle_fails imencode IMWRITE_JPEG_QUALITY).
Local Abbreviation cycle_raises' := (cycle_raises imencode IMWRITE_JPEG_QUALITY).
Local Abbreviation encode_params' := (encode_params IMWRITE_JPEG_QUALITY).

Implicit Types (s : Service) (st : System) (e : Event RawFrame) (g : Generator).

(** *** The fields under one cycle' and one step' *)

(** A cycle' either leaves the service alone or publishes one buffer. *)
Lemma cycle_cases c s :
  cycle' c s = (s, false) \/ exists buf, cycle' c s = (publish buf s, true).
Proof.
  destruct c as [|[bgr|]]; simpl; auto.
  destruct (imencode _ _ _) as [[[] buf]|]; eauto.
Qed.

(** A step' either keeps [_latest_original] and [_frame_seq], or is a
    publishing cycle'. *)
Lemma step_fields st e :
  (_latest_original (service (step' st e)) = _latest_original (service st)
   /\ _frame_seq (service (step' st e)) = _frame_seq (service st))
  \/ exists buf, service (step' st e) = publish buf (service st).
Proof.
  destruct e; cbn [step]; auto.
  - destruct (loop_pc st); auto.
  - destruct (loop_pc st); auto.
    destruct (cycle_cases c (service st)) as [-> | [buf ->]]; simpl; eauto.
  - destruct (sessions st !! i); [auto|]. destruct (body _); auto.
Qed.

Lemma step_frame_seq_mono st e :
  _frame_seq (service st) <= _frame_seq (service (step' st e)).
Proof.
  destruct (step_fields st e) as [[_ ->] | [buf ->]]; simpl; lia.
Qed.

Lemma run_frame_seq_mono evs st :
  _frame_seq (service st) <= _frame_seq (service (run' evs st)).
Proof.
  revert st. induction evs as [|e evs IH]; intros st; simpl; [lia|].
  etransitivity; [apply (step_frame_seq_mono st e) | apply IH].
Qed.

(** The counter counts the publishes of a run. *)
Lemma step_frame_seq_publishes st e :
  _frame_seq (service (step' st e))
  = _frame_seq (service st) + (if publishes_at' st e then 1 else 0).
Proof.
  unfold publishes_at. destruct e; cbn [step]; try (simpl; lia).
  - destruct (loop_pc st); simpl; lia.
  - destruct (loop_pc st); try (simpl; lia).
    destruct (cycle_cases c (service st)) as [-> | [buf ->]]; simpl; lia.
  - destruct (sessions st !! i); [lia|]. destruct (body _); simpl; lia.
Qed.

Lemma run_frame_seq_publishes evs st :
  _frame_seq (service (run' evs st))
  = _frame_seq (service st) + Z.of_nat (publishes' evs st).
Proof.
  revert st. induction evs as [|e evs IH]; intros st.
  - simpl. lia.
  - cbn [run fold_left publishes]. fold (run' evs (step' st e)).
    rewrite IH, step_frame_seq_publishes.
    destruct (publishes_at' st e); lia.
Qed.

Lemma publish_all_frame_seq (bufs : list bytes) s :
  _frame_seq (fold_left (fun acc buf => publish buf acc) bufs s)
  = _frame_seq s + Z.of_nat (length bufs).
Proof.
  revert s. induction bufs as [|buf bufs IH]; intros s.
  - simpl. lia.
  - cbn [fold_left length]. rewrite IH. simpl. lia.
Qed.

(** C1: each publish stores the new frame as current and adds exactly
    1 to the sequence counter, so after any sequence of publishes the
    counter has grown by their number; every step' of every thread
    leaves the counter where it is or adds 1, and no run' decreases
    it. *)
Theorem publish_version_strictly_increasing :
  (forall buf s,
      _latest_original (publish buf s) = Some buf
      /\ _frame_seq (publish buf s) = _frame_seq s + 1
      /\ _frame_seq s < _frame_seq (publish buf s))
  /\ (forall (bufs : list bytes) s,
      _frame_seq (fold_left (fun acc buf => publish buf acc) bufs s)
      = _frame_seq s + Z.of_nat (length bufs))
  /\ (forall st e,
      _frame_seq (service (step' st e)) = _frame_seq (service st)
      \/ _frame_seq (service (step' st e)) = _frame_seq (service st) + 1)
  /\ (forall evs st,
      _frame_seq (service st) <= _frame_seq (service (run' evs st))
      /\ _frame_seq (service (run' evs st))
         = _frame_seq (service st) + Z.of_nat (publishes' evs st)).
Proof.
  repeat split.
  - simpl. lia.
  - apply publish_all_frame_seq.
  - intros st e. destruct (step_fields st e) as [[_ ->] | [buf ->]]; auto.
  - apply run_frame_seq_mono.
  - apply run_frame_seq_publishes.
Qed.


(** *** The invariant of the running system *)

Lemma Inv_boot cfg : Inv (boot cfg).
Proof.
  split; simpl; try lia; try tauto.
  - intros i x H. by rewrite lookup_empty in H.
  - intros i x H. by rewrite lookup_empty in H.
Qed.

Lemma wake_last_seq g : last_seq (wake g) = last_seq g.
Proof. unfold wake. by destruct (pc g). Qed.

(** [resume] keeps [last_seq] or moves it to the current [_frame_seq];
    a chunk it yields wraps the current frame. *)
Lemma resume_cases s g :
  (last_seq (resume s g).1 = last_seq g /\ (resume s g).2 = None)
  \/ (exists frame,
        pc g = InCondition /\ _stop s = false
        /\ last_seq g <> _frame_seq s
        /\ _latest_original s = Some frame
        /\ resume s g = ({| last_seq := _frame_seq s; pc := Suspended |},
                         Some (chunk_of frame))).
Proof.
  unfold resume, critical_section, critical_section_reads.
  destruct (pc g) eqn:Hpc; simpl; auto.
  - destruct (_stop s); auto.
  - destruct (Z.eqb_spec (last_seq g) (_frame_seq s)) as [Heq|Hne];
      destruct (_stop s) eqn:Hstop; simpl; auto.
    destruct (_latest_original s) as [frame|] eqn:Hl; simpl; auto.
    right. exists frame. auto.
Qed.

Lemma run_session_last s ok x :
  -1 <= last_seq (gen x) <= _frame_seq s ->
  last_seq (gen x) <= last_seq (gen (run_session s ok x)) <= _frame_seq s.
Proof.
  intros H. unfold run_session. destruct (serving x); [|lia].
  destruct (resume_cases s (gen x)) as [[Hl Hn] | (frame & _ & _ & _ & _ & ->)].
  - destruct (resume s (gen x)) as [g' [chunk|]]; simpl in *; [done|]. lia.
  - destruct ok; simpl; lia.
Qed.

Lemma run_session_wfile s ok x :
  Forall is_part (wfile x) -> Forall is_part (wfile (run_session s ok x)).
Proof.
  intros H. unfold run_session. destruct (serving x); [|done].
  destruct (resume_cases s (gen x)) as [[Hl Hn] | (frame & _ & _ & _ & _ & ->)].
  - destruct (resume s (gen x)) as [g' [chunk|]]; simpl in *; done.
  - destruct ok; simpl; [|done].
    apply Forall_app. split; [done|]. constructor; [|constructor]. by exists frame.
Qed.

Lemma Inv_step st e : Inv st -> Inv (step' st e).
Proof.
  intros [Hnn Habs Hlast Hwf].
  destruct e; cbn [step].
  - (* LoopCheck *)
    destruct (loop_pc st); by split.
  - (* LoopCycle *)
    destruct (loop_pc st); try by split.
    destruct (cycle_cases c (service st)) as [-> | [buf ->]].
    + by split.
    + split; simpl.
      * lia.
      * split; [done | lia].
      * intros i x. rewrite lookup_fmap.
        destruct (sessions st !! i) as [y|] eqn:Hy; [|done].
        intros [= <-]. simpl. rewrite wake_last_seq.
        specialize (Hlast i y Hy). lia.
      * intros i x. rewrite lookup_fmap.
        destruct (sessions st !! i) as [y|] eqn:Hy; [|done].
        intros [= <-]. simpl. eauto.
  - (* Stop *)
    by split.
  - (* GET *)
    destruct (sessions st !! i) as [y|] eqn:Hy; [by split|].
    destruct (body _) as [| |g] eqn:Hb; try by split.
    assert (g = frame_generator) as ->.
    { revert Hb. unfold do_GET.
      destruct (String.eqb path "/"); [done|].
      destruct (String.eqb path "/stream"); [|done]. by intros [= <-]. }
    split; simpl; try done.
    + intros j x. rewrite lookup_insert. case_decide.
      * intros [= <-]. simpl. lia.
      * eauto.
    + intros j x. rewrite lookup_insert. case_decide.
      * intros [= <-]. simpl. constructor.
      * eauto.
  - (* Run *)
    split; simpl; try done.
    + intros j x. rewrite lookup_alter. case_decide.
      * subst j. destruct (sessions st !! i) as [y|] eqn:Hy; [|done].
        intros [= <-]. specialize (Hlast i y Hy).
        pose proof (run_session_last (service st) write_ok y Hlast). lia.
      * eauto.
    + intros j x. rewrite lookup_alter. case_decide.
      * subst j. destruct (sessions st !! i) as [y|] eqn:Hy; [|done].
        intros [= <-]. apply run_session_wfile. eauto.
      * eauto.
  - (* Timeout *)
    split; simpl; try done.
    + intros j x. rewrite lookup_alter. case_decide.
      * subst j. destruct (sessions st !! i) as [y|] eqn:Hy; [|done].
        intros [= <-]. simpl. rewrite wake_last_seq. eauto.
      * eauto.
    + intros j x. rewrite lookup_alter. case_decide.
      * subst j. destruct (sessions st !! i) as [y|] eqn:Hy; [|done].
        intros [= <-]. simpl. eauto.
      * eauto.
Qed.

Lemma Inv_run evs st : Inv st -> Inv (run' evs st).
Proof.
  revert st. induction evs as [|e evs IH]; intros st H; simpl; [done|].
  apply IH, Inv_step, H.
Qed.

Lemma Inv_reachable cfg evs : Inv (run' evs (boot cfg)).
Proof. apply Inv_run, Inv_boot. Qed.

(** *** What a generator is handed *)

Lemma delivered_inv st e j frame v :
  delivered st e = Some (j, frame, v) ->
  exists ok x,
    e = Run j ok /\ sessions st !! j = Some x /\ serving x = true
    /\ pc (gen x) = InCondition /\ _stop (service st) = false
    /\ last_seq (gen x) <> v /\ v = _frame_seq (service st)
    /\ _latest_original (service st) = Some frame.
Proof.
  destruct e as [| | | |i ok|]; simpl; try done.
  destruct (sessions st !! i) as [x|] eqn:Hx; [|done].
  destruct (serving x) eqn:Hs; [|done].
  destruct (pc (gen x)) eqn:Hpc; try done.
  unfold critical_section, critical_section_reads.
  destruct (Z.eqb_spec (last_seq (gen x)) (_frame_seq (service st))) as [Heq|Hne];
    destruct (_stop (service st)); simpl; try done.
  destruct (_latest_original (service st)) as [fr|]; [|done].
  intros [= <- <- <-]. exists ok, x. auto 10.
Qed.

(** The generator that is handed [(frame, v)] yields the chunk of
    [frame] and remembers [v]. *)
Lemma delivered_resume st e j frame v :
  delivered st e = Some (j, frame, v) ->
  exists x, sessions st !! j = Some x
    /\ resume (service st) (gen x)
       = ({| last_seq := v; pc := Suspended |}, Some (chunk_of frame)).
Proof.
  intros (ok & x & -> & Hx & Hs & Hpc & Hstop & Hne & -> & Hl)%delivered_inv.
  exists x. split; [done|].
  destruct (resume_cases (service st) (gen x))
    as [[_ Hn] | (fr & _ & _ & _ & Hl' & ->)].
  - exfalso. revert Hn. unfold resume, critical_section, critical_section_reads.
    rewrite Hpc, Hstop, Hl. destruct (Z.eqb_spec (last_seq (gen x)) (_frame_seq (service st))); done.
  - congruence.
Qed.

Lemma delivered_last_of st e j frame v :
  delivered st e = Some (j, frame, v) -> last_of (step' st e) j = v.
Proof.
  intros H. destruct (delivered_resume _ _ _ _ _ H) as (x & Hx & Hr).
  apply delivered_inv in H as (ok & y & -> & Hy & Hs & _).
  assert (y = x) as -> by congruence.
  unfold last_of. cbn [step sessions]. rewrite lookup_alter_eq, Hx. simpl.
  unfold run_session. rewrite Hs, Hr. by destruct ok.
Qed.

Lemma last_of_step_mono st e i :
  Inv st -> last_of st i <= last_of (step' st e) i.
Proof.
  intros HI. pose proof (Inv_step st e HI) as HI'.
  unfold last_of.
  destruct (sessions st !! i) as [x|] eqn:Hx.
  - destruct e as [| c | | j path | j ok | j]; cbn [step].
    + destruct (loop_pc st); cbn [sessions]; rewrite Hx; lia.
    + destruct (loop_pc st); cbn [sessions]; try (rewrite Hx; lia).
      destruct (cycle' c (service st)) as [s' [|]]; cbn [sessions notify_all].
      * rewrite lookup_fmap, Hx. simpl. rewrite wake_last_seq. lia.
      * rewrite Hx. lia.
    + cbn [sessions]. rewrite Hx. lia.
    + destruct (sessions st !! j) as [y|] eqn:Hy; [rewrite Hx; lia|].
      destruct (body _); cbn [sessions]; try (rewrite Hx; lia).
      rewrite lookup_insert_ne by congruence. rewrite Hx. lia.
    + cbn [sessions]. rewrite lookup_alter. case_decide.
      * subst j. rewrite Hx. simpl.
        pose proof (run_session_last (service st) ok x (inv_last _ HI i x Hx)). lia.
      * rewrite Hx. lia.
    + cbn [sessions]. rewrite lookup_alter. case_decide.
      * subst j. rewrite Hx. simpl. rewrite wake_last_seq. lia.
      * rewrite Hx. lia.
  - destruct (sessions (step' st e) !! i) as [x'|] eqn:Hx'; [|lia].
    pose proof (inv_last _ HI' i x' Hx'). lia.
Qed.

Lemma versions_above_last i evs st :
  Inv st ->
  Forall (fun v => last_of st i < v) (versions' i evs st)
  /\ StronglySorted Z.lt (versions' i evs st).
Proof.
  revert st. induction evs as [|e evs IH]; intros st HI; simpl.
  - split; constructor.
  - pose proof (Inv_step st e HI) as HI'.
    destruct (IH _ HI') as [Hall Hsorted].
    pose proof (last_of_step_mono st e i HI) as Hmono.
    assert (Forall (fun v => last_of st i < v) (versions' i evs (step' st e))) as Hall'.
    { eapply Forall_impl; [exact Hall|]. simpl. intros v Hv. lia. }
    destruct (delivered st e) as [[[j frame] v]|] eqn:Hd; [|done].
    case_decide as Hj; [subst j|done].
    pose proof (delivered_last_of _ _ _ _ _ Hd) as Hlast.
    apply delivered_inv in Hd as (ok & x & -> & Hx & _ & _ & _ & Hne & Hv & _).
    pose proof (inv_last _ HI i x Hx) as Hrange.
    assert (last_of st i < v) as Hlt.
    { unfold last_of. rewrite Hx. lia. }
    split.
    + constructor; done.
    + constructor; [done|]. rewrite <- Hlast. exact Hall.
Qed.

(** C2: in every run from start-up, whenever a generator is handed a
    frame, the sequence number it is handed is above its [last_seq],
    it is the current [_frame_seq] with the current [_latest_original]
    (whatever was published in between is skipped), and it becomes the
    generator's [last_seq]; the sequence numbers handed to one
    connection along the run are strictly increasing. *)
Theorem session_versions_strictly_increasing cfg evs i :
  (forall e frame v,
      delivered (run' evs (boot cfg)) e = Some (i, frame, v) ->
      last_of (run' evs (boot cfg)) i < v
      /\ v = _frame_seq (service (run' evs (boot cfg)))
      /\ _latest_original (service (run' evs (boot cfg))) = Some frame
      /\ last_of (step' (run' evs (boot cfg)) e) i = v)
  /\ StronglySorted Z.lt (versions' i evs (boot cfg)).
Proof.
  split.
  - intros e frame v Hd. set (st := run' evs (boot cfg)) in *.
    pose proof (Inv_reachable cfg evs : Inv st) as HI.
    pose proof (delivered_last_of _ _ _ _ _ Hd) as Hlast.
    apply delivered_inv in Hd as (ok & x & -> & Hx & _ & _ & _ & Hne & Hv & Hl).
    pose proof (inv_last _ HI i x Hx) as Hrange.
    repeat split; try done.
    unfold last_of. rewrite Hx. lia.
  - apply versions_above_last, Inv_boot.
Qed.

(** *** After [stop] *)

Lemma stop_idempotent s : stop (stop s) = stop s.
Proof. reflexivity. Qed.

Lemma stopped_step st e :
  _stop (service st) = true -> _stop (service (step' st e)) = true.
Proof.
  intros H. destruct e; cbn [step]; auto.
  - by destruct (loop_pc st).
  - destruct (loop_pc st); auto.
    destruct (cycle_cases c (service st)) as [-> | [buf ->]]; done.
  - destruct (sessions st !! i); [done|]. by destruct (body _).
Qed.

Lemma stopped_run evs st :
  _stop (service st) = true -> _stop (service (run' evs st)) = true.
Proof.
  revert st. induction evs as [|e evs IH]; intros st H; simpl; [done|].
  by apply IH, stopped_step.
Qed.

Lemma critical_section_stopped s last :
  _stop s = true -> critical_section s last = StoppedSignal.
Proof.
  intros H. unfold critical_section, critical_section_reads. rewrite H.
  by rewrite andb_false_r.
Qed.

(** Under a set [_stop], a step of the generator writes nothing and
    brings the handler nearer to the end of its loop. *)
Lemma run_session_stopped s ok x :
  _stop s = true ->
  wfile (run_session s ok x) = wfile x
  /\ (rank (run_session s ok x) <= rank x)%nat
  /\ ((rank x <= 2)%nat -> (rank (run_session s ok x) <= rank x - 1)%nat).
Proof.
  intros H. unfold run_session, rank.
  destruct (serving x) eqn:Hs; [|rewrite Hs; split; [done | simpl; lia]].
  unfold resume. rewrite (critical_section_stopped s _ H), H.
  destruct (pc (gen x)) eqn:Hpc; simpl; rewrite ?Hs, ?Hpc; (split; [done | simpl; lia]).
Qed.

Lemma wake_rank x :
  (rank {| gen := wake (gen x); wfile := wfile x; serving := serving x |} <= rank x)%nat
  /\ (rank {| gen := wake (gen x); wfile := wfile x; serving := serving x |} <= 2)%nat.
Proof.
  destruct x as [[l p] w sv]. unfold rank, wake. destruct sv, p; simpl; lia.
Qed.

(** Under a set [_stop], any step of any thread keeps connection [i],
    leaves what was written to it, and does not move it away from the
    end of its loop. *)
Lemma stopped_step_session st e i x :
  _stop (service st) = true -> sessions st !! i = Some x ->
  exists y, sessions (step' st e) !! i = Some y
    /\ wfile y = wfile x /\ (rank y <= rank x)%nat.
Proof.
  intros H Hx. destruct e as [| c | | j path | j ok | j]; cbn [step].
  - destruct (loop_pc st); eauto.
  - destruct (loop_pc st); eauto.
    destruct (cycle' c (service st)) as [s' [|]]; cbn [sessions notify_all]; eauto.
    rewrite lookup_fmap, Hx. simpl. eexists. split; [done|].
    split; [done|]. apply wake_rank.
  - eauto.
  - destruct (sessions st !! j) as [y|] eqn:Hy; eauto.
    destruct (body _); eauto.
    cbn [sessions]. rewrite lookup_insert_ne by congruence. eauto.
  - cbn [sessions]. rewrite lookup_alter. case_decide; eauto.
    subst j. rewrite Hx. simpl. eexists. split; [done|].
    destruct (run_session_stopped (service st) ok x H) as (? & ? & _). done.
  - cbn [sessions]. rewrite lookup_alter. case_decide; eauto.
    subst j. rewrite Hx. simpl. eexists. split; [done|].
    split; [done|]. apply wake_rank.
Qed.

Lemma stopped_run_session evs st i x :
  _stop (service st) = true -> sessions st !! i = Some x ->
  exists y, sessions (run' evs st) !! i = Some y
    /\ wfile y = wfile x /\ (rank y <= rank x)%nat.
Proof.
  revert st x. induction evs as [|e evs IH]; intros st x H Hx; simpl; [eauto|].
  destruct (stopped_step_session st e i x H Hx) as (y & Hy & Hw & Hr).
  destruct (IH (step' st e) y (stopped_step _ _ H) Hy) as (z & Hz & Hw' & Hr').
  exists z. split; [done|]. split; [congruence | lia].
Qed.

Lemma stopped_timeout st i x :
  _stop (service st) = true -> sessions st !! i = Some x ->
  exists y, sessions (step' st (Timeout i)) !! i = Some y
    /\ wfile y = wfile x /\ (rank y <= 2)%nat.
Proof.
  intros H Hx. cbn [step sessions]. rewrite lookup_alter_eq, Hx. simpl.
  eexists. split; [done|]. split; [done|]. apply wake_rank.
Qed.

Lemma stopped_run_own st i ok x :
  _stop (service st) = true -> sessions st !! i = Some x -> (rank x <= 2)%nat ->
  exists y, sessions (step' st (Run i ok)) !! i = Some y
    /\ wfile y = wfile x /\ (rank y <= rank x - 1)%nat.
Proof.
  intros H Hx Hr. cbn [step sessions]. rewrite lookup_alter_eq, Hx. simpl.
  eexists. split; [done|].
  destruct (run_session_stopped (service st) ok x H) as (? & _ & ?). auto.
Qed.

Lemma rank_0 x : rank x = 0%nat -> serving x = false.
Proof. unfold rank. destruct (serving x); [|done]. by destruct (pc (gen x)). Qed.

Lemma run_app evs1 evs2 st : run' (evs1 ++ evs2) st = run' evs2 (run' evs1 st).
Proof. apply fold_left_app. Qed.

Lemma run_cons e evs st : run' (e :: evs) st = run' evs (step' st e).
Proof. reflexivity. Qed.

Lemma delivered_stopped st e :
  _stop (service st) = true -> delivered st e = None.
Proof.
  intros H. destruct (delivered st e) as [[[j frame] v]|] eqn:Hd; [|done].
  apply delivered_inv in Hd as (ok & x & _ & _ & _ & _ & Hstop & _). congruence.
Qed.

(** C3 (as the code has it): [stop] sets the flag, is idempotent,
    leaves frame and counter alone and notifies nobody (the connections
    are as they were, a waiter still waits); the flag never clears;
    from then on every pass through lines 76-82 gives the stopped
    signal and no frame is handed out; and a connection present at any
    moment after the stop, whatever the other threads do in between,
    has left its loop once its pending wait has timed out and its
    handler has taken two more steps, with nothing more written to
    it. *)
Theorem stop_releases_waiters_by_timeout :
  (forall s,
      _stop (stop s) = true /\ stop (stop s) = stop s
      /\ _latest_original (stop s) = _latest_original s
      /\ _frame_seq (stop s) = _frame_seq s)
  /\ (forall st, sessions (step' st Stop) = sessions st)
  /\ (forall st evs, _stop (service (run' evs (step' st Stop))) = true)
  /\ (forall st evs last,
      critical_section (service (run' evs (step' st Stop))) last = StoppedSignal)
  /\ (forall st evs e, delivered (run' evs (step' st Stop)) e = None)
  /\ (forall st evs i x evs1 evs2 evs3 ok ok',
      sessions (run' evs (step' st Stop)) !! i = Some x ->
      exists y,
        sessions (run' (Timeout i :: evs1 ++ Run i ok :: evs2 ++ Run i ok' :: evs3)
                       (run' evs (step' st Stop))) !! i = Some y
        /\ serving y = false /\ wfile y = wfile x).
Proof.
  assert (forall st evs, _stop (service (run' evs (step' st Stop))) = true) as Hstopped.
  { intros st evs. by apply stopped_run. }
  repeat split; try done.
  - intros st evs last. apply critical_section_stopped, Hstopped.
  - intros st evs e. apply delivered_stopped, Hstopped.
  - intros st evs i x1 evs1 evs2 evs3 ok ok' Hx1.
    rewrite run_cons, run_app, run_cons, run_app, run_cons.
    pose proof (Hstopped st evs) as H1.
    set (st1 := run' evs (step' st Stop)) in *.
    destruct (stopped_timeout st1 i x1 H1 Hx1) as (x2 & Hx2 & Hw2 & Hr2).
    set (st2 := step' st1 (Timeout i)) in *.
    pose proof (stopped_step st1 (Timeout i) H1 : _stop (service st2) = true) as H2.
    destruct (stopped_run_session evs1 st2 i x2 H2 Hx2) as (x3 & Hx3 & Hw3 & Hr3).
    set (st3 := run' evs1 st2) in *.
    pose proof (stopped_run evs1 st2 H2 : _stop (service st3) = true) as H3.
    destruct (stopped_run_own st3 i ok x3 H3 Hx3 ltac:(lia)) as (x4 & Hx4 & Hw4 & Hr4).
    set (st4 := step' st3 (Run i ok)) in *.
    pose proof (stopped_step st3 (Run i ok) H3 : _stop (service st4) = true) as H4.
    destruct (stopped_run_session evs2 st4 i x4 H4 Hx4) as (x5 & Hx5 & Hw5 & Hr5).
    set (st5 := run' evs2 st4) in *.
    pose proof (stopped_run evs2 st4 H4 : _stop (service st5) = true) as H5.
    destruct (stopped_run_own st5 i ok' x5 H5 Hx5 ltac:(lia)) as (x6 & Hx6 & Hw6 & Hr6).
    set (st6 := step' st5 (Run i ok')) in *.
    pose proof (stopped_step st5 (Run i ok') H5 : _stop (service st6) = true) as H6.
    destruct (stopped_run_session evs3 st6 i x6 H6 Hx6) as (x7 & Hx7 & Hw7 & Hr7).
    exists x7. split; [done|]. split; [apply rank_0; lia | congruence].
Qed.

(** *** The capture loop *)

Lemma cycle_failure c s :
  cycle_fails' (config s) c = true -> cycle' c s = (s, false).
Proof.
  destruct c as [|[bgr|]]; simpl; try done.
  destruct (imencode _ _ _) as [[[] buf]|]; simpl; done.
Qed.

Lemma cycle_failure_no_raise cfg c :
  cycle_fails' cfg c = true -> cycle_raises' cfg c = false.
Proof.
  destruct c as [|[bgr|]]; simpl; try done.
  destruct (imencode _ _ _) as [[[] buf]|]; simpl; done.
Qed.

(** A cycle in which the encoder raises leaves the service as it was. *)
Lemma cycle_raise c s :
  cycle_raises' (config s) c = true -> cycle' c s = (s, false).
Proof.
  destruct c as [|[bgr|]]; simpl; try done.
  destruct (imencode _ _ _) as [[[] buf]|]; simpl; done.
Qed.

Lemma cycle_success c s :
  cycle_fails' (config s) c = false ->
  cycle_raises' (config s) c = false ->
  exists bgr buf,
    c = CaptureReturns (Some bgr)
    /\ imencode ".jpg" bgr (encode_params' (config s)) = Some (true, buf)
    /\ cycle' c s = (publish buf s, true).
Proof.
  destruct c as [|[bgr|]]; simpl; try done.
  destruct (imencode _ _ _) as [[[] buf]|] eqn:He; simpl; try done.
  intros _ _. exists bgr, buf. done.
Qed.

Lemma success_no_raise cfg bgr buf :
  imencode ".jpg" bgr (encode_params' cfg) = Some (true, buf) ->
  cycle_raises' cfg (CaptureReturns (Some bgr)) = false.
Proof. intros H. simpl. by rewrite H. Qed.

Lemma loop_failures failures rest s :
  Forall (fun c => cycle_fails' (config s) c = true) failures ->
  loop' (failures ++ rest) s = loop' rest s.
Proof.
  induction 1 as [|c failures Hc _ IH]; simpl; [done|].
  rewrite (cycle_failure c s Hc), (cycle_failure_no_raise _ c Hc). simpl. rewrite IH.
  destruct (_stop s) eqn:Hs; [|done]. by destruct rest; simpl; rewrite ?Hs.
Qed.

Lemma run_loop_exited captures st :
  loop_pc st = LoopExited ->
  run' (loop_events captures) st = st.
Proof.
  intros H. induction captures as [|c captures IH]; simpl; [done|].
  rewrite H. simpl. rewrite H. exact IH.
Qed.

(** The loop thread running alone through the system's steps computes
    [_loop]. *)
Lemma run_loop_alone captures st :
  loop_pc st = LoopTop ->
  service (run' (loop_events captures) st)
  = loop' captures (service st).
Proof.
  revert st. induction captures as [|c captures IH]; intros st H; simpl; [done|].
  rewrite H. simpl. destruct (_stop (service st)) eqn:Hs.
  - rewrite run_loop_exited; done.
  - destruct (cycle_raises' (config (service st)) c) eqn:Hr.
    + rewrite (cycle_raise c (service st) Hr). by rewrite run_loop_exited.
    + destruct (cycle' c (service st)) as [s' n] eqn:Hc. simpl.
      rewrite IH by done. done.
Qed.

(** Once the loop thread has ended nothing publishes any more. *)
Lemma publishes_exited evs st :
  loop_pc st = LoopExited ->
  publishes' evs st = 0%nat /\ loop_pc (run' evs st) = LoopExited.
Proof.
  revert st. induction evs as [|e evs IH]; intros st Hpc; [done|].
  cbn [publishes]. change (run' (e :: evs) st) with (run' evs (step' st e)).
  assert (loop_pc (step' st e) = LoopExited /\ publishes_at' st e = false) as [Hpc' ->].
  { unfold publishes_at. destruct e; cbn [step]; rewrite ?Hpc; try done.
    destruct (sessions st !! i); [done|]. by destruct (body _). }
  destruct (IH _ Hpc') as [-> ->]. done.
Qed.

(** The loop ends at the first cycle in which the encoder raises. *)
Lemma loop_raise before c after s :
  cycle_raises' (config s) c = true ->
  loop' (before ++ c :: after) s = loop' before s.
Proof.
  revert s. induction before as [|x before IH]; intros s Hr; simpl.
  - rewrite Hr. by destruct (_stop s).
  - destruct (_stop s); [done|].
    destruct (cycle_raises' (config s) x); [done|].
    apply IH.
    destruct (cycle_cases x s) as [-> | [buf ->]]; done.
Qed.

(** C4, where the code departs from it: when the encoder raises in a
    cycle, the service is left as it was, but the loop thread ends,
    with [_stop] not set; from then on nothing is published, whatever
    is captured later; so a failure of this kind followed by a good
    capture gives no publish at all. *)
Theorem encoder_exception_ends_loop :
  (forall c st,
      loop_pc st = LoopInCycle ->
      cycle_raises' (config (service st)) c = true ->
      step' st (LoopCycle c)
      = {| service := service st; loop_pc := LoopExited; sessions := sessions st |})
  /\ (forall st evs,
      loop_pc st = LoopExited ->
      publishes' evs st = 0%nat
      /\ _frame_seq (service (run' evs st)) = _frame_seq (service st))
  /\ (forall before c after s,
      cycle_raises' (config s) c = true ->
      loop' (before ++ c :: after) s = loop' before s)
  /\ (forall failures c after st,
      loop_pc st = LoopTop ->
      Forall (fun c' => cycle_fails' (config (service st)) c' = true) failures ->
      cycle_raises' (config (service st)) c = true ->
      service (run' (loop_events (failures ++ c :: after)) st) = service st).
Proof.
  split.
  { intros c st Hpc Hr. cbn [step]. by rewrite Hpc, (cycle_raise _ _ Hr), Hr. }
  split.
  { intros st evs Hpc. destruct (publishes_exited evs st Hpc) as [Hp _].
    split; [done|]. rewrite run_frame_seq_publishes, Hp. lia. }
  split; [exact loop_raise|].
  intros failures c after st Hpc Hfail Hr.
  rewrite run_loop_alone by done. rewrite loop_raise by done.
  rewrite <- (app_nil_r failures). by rewrite loop_failures.
Qed.

(** X26: a cycle whose capture raises or returns nothing, or whose
    encoding returns a false flag, leaves the service as it was and
    takes the loop back to its top; a cycle that neither fails in this
    way nor raises in the encoder publishes the encoded buffer; and any
    number of cycles failing in this way followed by one good one, on a
    service not stopped, end in exactly that one publish, the counter
    one higher. *)
Theorem failed_cycles_publish_nothing :
  (forall c s, cycle_fails' (config s) c = true -> cycle' c s = (s, false))
  /\ (forall c st,
      loop_pc st = LoopInCycle -> cycle_fails' (config (service st)) c = true ->
      step' st (LoopCycle c)
      = {| service := service st; loop_pc := LoopTop; sessions := sessions st |})
  /\ (forall c s,
      cycle_fails' (config s) c = false ->
      cycle_raises' (config s) c = false ->
      exists bgr buf,
        c = CaptureReturns (Some bgr)
        /\ imencode ".jpg" bgr (encode_params' (config s)) = Some (true, buf)
        /\ cycle' c s = (publish buf s, true))
  /\ (forall failures bgr buf st,
      loop_pc st = LoopTop -> _stop (service st) = false ->
      Forall (fun c => cycle_fails' (config (service st)) c = true) failures ->
      imencode ".jpg" bgr (encode_params' (config (service st))) = Some (true, buf) ->
      loop' (failures ++ [CaptureReturns (Some bgr)]) (service st)
      = publish buf (service st)
      /\ service (run' (loop_events (failures ++ [CaptureReturns (Some bgr)])) st)
         = publish buf (service st)
      /\ _frame_seq (service (run' (loop_events (failures ++ [CaptureReturns (Some bgr)])) st))
         = _frame_seq (service st) + 1).
Proof.
  split; [exact cycle_failure|].
  split.
  { intros c st Hpc Hf. cbn [step].
    by rewrite Hpc, (cycle_failure _ _ Hf), (cycle_failure_no_raise _ _ Hf). }
  split; [exact cycle_success|].
  intros failures bgr buf st Hpc Hstop Hfail Henc.
  assert (loop' (failures ++ [CaptureReturns (Some bgr)]) (service st)
          = publish buf (service st)) as Hloop.
  { rewrite loop_failures by done. simpl. rewrite Hstop, Henc. done. }
  rewrite run_loop_alone by done. rewrite Hloop. done.
Qed.

(** *** A new connection *)

Lemma step_GET_stream st i :
  sessions st !! i = None ->
  step' st (GET i "/stream")
  = {| service := service st; loop_pc := loop_pc st;
       sessions := <[i := {| gen := frame_generator; wfile := []; serving := true |}]>
                     (sessions st) |}.
Proof. intros H. cbn [step]. rewrite H. reflexivity. Qed.

Lemma step_Run st i ok :
  step' st (Run i ok)
  = {| service := service st; loop_pc := loop_pc st;
       sessions := alter (run_session (service st) ok) i (sessions st) |}.
Proof. reflexivity. Qed.

Lemma run_session_AtTop s ok l w :
  _stop s = false ->
  run_session s ok {| gen := {| last_seq := l; pc := AtTop |}; wfile := w; serving := true |}
  = {| gen := {| last_seq := l; pc := InCondition |}; wfile := w; serving := true |}.
Proof. intros H. unfold run_session, resume. simpl. by rewrite H. Qed.

Lemma run_session_NewFrame s l w frame v :
  critical_section s l = NewFrame (Some frame) v ->
  run_session s true {| gen := {| last_seq := l; pc := InCondition |}; wfile := w;
                        serving := true |}
  = {| gen := {| last_seq := v; pc := Suspended |}; wfile := w ++ [chunk_of frame];
       serving := true |}.
Proof. intros H. unfold run_session, resume. simpl. by rewrite H. Qed.

(** *** One frame for all *)

Lemma critical_section_NewFrame s last frame v :
  critical_section s last = NewFrame frame v ->
  frame = _latest_original s /\ v = _frame_seq s
  /\ _stop s = false /\ last <> _frame_seq s.
Proof.
  unfold critical_section, critical_section_reads.
  destruct (Z.eqb_spec last (_frame_seq s)); destruct (_stop s); simpl; try done.
  by intros [= <- <-].
Qed.

(** The two tests of [_stop] in lines 76 and 78 may see different
    values only if [stop] ran in between; the pass then gives what it
    gives on one state of the service, with the flag as the deciding
    test read it. *)
Lemma critical_section_reads_one_state s stop76 stop78 last :
  (stop76 = true -> stop78 = true) ->
  critical_section_reads s stop76 stop78 last
  = critical_section
      {| config := config s;
         _stop := if last =? _frame_seq s then stop76 else stop78;
         _latest_original := _latest_original s;
         _frame_seq := _frame_seq s |} last.
Proof.
  intros Hmono. unfold critical_section, critical_section_reads. simpl.
  destruct (last =? _frame_seq s); simpl; [|done].
  destruct stop76; simpl; [|done]. by rewrite Hmono.
Qed.

Lemma step_no_publish st e :
  publishes_at' st e = false ->
  _latest_original (service (step' st e)) = _latest_original (service st)
  /\ _frame_seq (service (step' st e)) = _frame_seq (service st).
Proof.
  unfold publishes_at. destruct e; cbn [step]; auto.
  - destruct (loop_pc st); auto.
  - destruct (loop_pc st); auto.
    destruct (cycle_cases c (service st)) as [-> | [buf ->]]; simpl; done.
  - destruct (sessions st !! i); [auto|]. destruct (body _); auto.
Qed.

Lemma run_no_publish evs st :
  publishes' evs st = 0%nat ->
  _latest_original (service (run' evs st)) = _latest_original (service st)
  /\ _frame_seq (service (run' evs st)) = _frame_seq (service st).
Proof.
  revert st. induction evs as [|e evs IH]; intros st H; [done|].
  cbn [publishes] in H. rewrite run_cons.
  destruct (publishes_at' st e) eqn:Hp; [lia|].
  destruct (IH (step' st e) ltac:(lia)) as [-> ->].
  by apply step_no_publish.
Qed.

(** C6: what a pass through lines 76-82 hands out is the current frame
    and counter of the service, the same for every caller whatever its
    [last_seq]; a generator's step leaves the service as it is, so the
    frame stays there for the others; hence two connections served
    with no publish in between are handed the same pair. *)
Theorem same_frame_for_all_consumers :
  (forall s last1 last2 frame1 v1 frame2 v2,
      critical_section s last1 = NewFrame frame1 v1 ->
      critical_section s last2 = NewFrame frame2 v2 ->
      (frame1, v1) = (frame2, v2)
      /\ (frame1, v1) = (_latest_original s, _frame_seq s))
  /\ (forall st i ok, service (step' st (Run i ok)) = service st)
  /\ (forall st evs e1 e2 i j frame1 v1 frame2 v2,
      delivered st e1 = Some (i, frame1, v1) ->
      publishes' evs st = 0%nat ->
      delivered (run' evs st) e2 = Some (j, frame2, v2) ->
      (frame1, v1) = (frame2, v2)).
Proof.
  split; [|split; [done|]].
  - intros s last1 last2 frame1 v1 frame2 v2 H1 H2.
    apply critical_section_NewFrame in H1 as (-> & -> & _).
    apply critical_section_NewFrame in H2 as (-> & -> & _). done.
  - intros st evs e1 e2 i j frame1 v1 frame2 v2 H1 Hp H2.
    apply delivered_inv in H1 as (_ & _ & _ & _ & _ & _ & _ & _ & -> & Hl1).
    apply delivered_inv in H2 as (_ & _ & _ & _ & _ & _ & _ & _ & -> & Hl2).
    destruct (run_no_publish evs st Hp) as [Hl Hs].
    rewrite Hl, Hl1 in Hl2. by injection Hl2 as ->; rewrite Hs.
Qed.

(** *** The bytes of one frame *)

(** C7: a chunk the generator yields is the boundary marker, a line
    break, the [image/jpeg] content-type header line, an empty line,
    the bytes of the current frame and a line break, and with it the
    generator's [last_seq] becomes the current sequence number; the
    handler, when its write succeeds, appends exactly this one chunk to
    what it has written. *)
Theorem yielded_chunk_is_one_part :
  (forall s g g' chunk,
      resume s g = (g', Some chunk) ->
      exists frame,
        _latest_original s = Some frame
        /\ chunk = b "--frame" ++ CRLF ++ b "Content-Type: image/jpeg" ++ CRLF
                   ++ CRLF ++ frame ++ CRLF
        /\ last_seq g' = _frame_seq s)
  /\ (forall st i x frame v,
      sessions st !! i = Some x ->
      delivered st (Run i true : Event RawFrame) = Some (i, frame, v) ->
      sessions (step' st (Run i true)) !! i
      = Some {| gen := {| last_seq := v; pc := Suspended |};
                wfile := wfile x ++ [chunk_of frame];
                serving := true |}).
Proof.
  split.
  - intros s g g' chunk H.
    destruct (resume_cases s g) as [[_ Hn] | (frame & _ & _ & _ & Hl & Hr)].
    + rewrite H in Hn. done.
    + rewrite Hr in H. injection H as <- <-. exists frame.
      split; [done|]. split; [|done]. unfold chunk_of, boundary.
      by rewrite <- !app_assoc.
  - intros st i x frame v Hx Hd.
    destruct (delivered_resume _ _ _ _ _ Hd) as (y & Hy & Hr).
    assert (y = x) as -> by congruence.
    apply delivered_inv in Hd as (_ & z & _ & Hz & Hs & _).
    assert (z = x) as -> by congruence.
    rewrite step_Run. cbn [sessions]. rewrite lookup_alter_eq, Hx. simpl.
    unfold run_session. by rewrite Hs, Hr.
Qed.

(** *** The quality handed to the encoder *)

Lemma loop_jpeg_quality_range cfg : 10 <= loop_jpeg_quality cfg <= 95.
Proof. unfold loop_jpeg_quality. lia. Qed.

(** C8 (as the code has it): the loop hands the encoder the configured
    quality clamped to 10..95: always a value in that range, the
    configured value itself when that lies in 10..95 (the default 80
    does), 10 for anything lower and 95 for anything higher; and this
    is the value in the parameter list of the [imencode] call of every
    cycle. *)
Theorem encoder_quality_is_clamped :
  (forall cfg,
      10 <= jpeg_quality cfg <= 95 ->
      encode_params' cfg = [IMWRITE_JPEG_QUALITY; jpeg_quality cfg])
  /\ (forall cfg,
      10 <= loop_jpeg_quality cfg <= 95
      /\ (jpeg_quality cfg < 10 -> loop_jpeg_quality cfg = 10)
      /\ (95 < jpeg_quality cfg -> loop_jpeg_quality cfg = 95))
  /\ jpeg_quality AppConfig_default = 80
  /\ jpeg_quality load_config = 80
  /\ encode_params' load_config = [IMWRITE_JPEG_QUALITY; 80]
  /\ (forall bgr s,
      cycle' (CaptureReturns (Some bgr)) s
      = match imencode ".jpg" bgr [IMWRITE_JPEG_QUALITY; loop_jpeg_quality (config s)] with
        | Some (ok_orig, orig_buf) =>
            if ok_orig then (publish orig_buf s, true) else (s, false)
        | None => (s, false)
        end).
Proof.
  split.
  { intros cfg H. unfold encode_params, loop_jpeg_quality. f_equal. f_equal. lia. }
  split.
  { intros cfg. unfold loop_jpeg_quality. lia. }
  repeat split.
Qed.

(** *** The routes *)

Lemma do_GET_root svc :
  do_GET svc "/"
  = {| status := 200;
       headers := [("Content-Type", "text/html; charset=utf-8");
                   ("Content-Length", "818")];
       body := Content (b template) |}.
Proof. reflexivity. Qed.

Lemma do_GET_stream svc :
  do_GET svc "/stream"
  = {| status := 200;
       headers := [("Content-Type", "multipart/x-mixed-replace; boundary=frame")];
       body := match svc with None => NoBody | Some _ => Stream frame_generator end |}.
Proof. reflexivity. Qed.

Lemma do_GET_other svc path :
  path <> "/" -> path <> "/stream" ->
  do_GET svc path = {| status := 404; headers := []; body := NoBody |}.
Proof.
  intros H1 H2. unfold do_GET.
  destruct (String.eqb_spec path "/"); [done|].
  destruct (String.eqb_spec path "/stream"); done.
Qed.

Lemma template_has_img :
  template
  = String.substring 0 709 template +:+ img_element
    +:+ String.substring 768 50 template.
Proof. vm_compute. reflexivity. Qed.

(** C9: the path [/] is answered 200 with a [text/html] content type
    and the page, which holds an [<img>] element whose source is
    [/stream]; the path [/stream] is answered 200 with content type
    [multipart/x-mixed-replace; boundary=frame] and, with the service
    in place, the chunks of a new generator, and whatever has been
    written to a connection at any moment of a run is a sequence of
    multipart parts, each the bytes [--frame], a line break, the line
    [Content-Type: image/jpeg], an empty line, the bytes of a frame and
    a line break; every other path is answered 404. *)
Theorem do_GET_routes :
  (forall svc,
      status (do_GET svc "/") = 200
      /\ headers (do_GET svc "/")
         = [("Content-Type", "text/html; charset=utf-8"); ("Content-Length", "818")]
      /\ String.prefix "text/html" "text/html; charset=utf-8" = true
      /\ body (do_GET svc "/") = Content (b template)
      /\ exists before after, template = before +:+ img_element +:+ after)
  /\ (forall svc,
      status (do_GET svc "/stream") = 200
      /\ headers (do_GET svc "/stream")
         = [("Content-Type", "multipart/x-mixed-replace; boundary=frame")])
  /\ (forall s, body (do_GET (Some s) "/stream") = Stream frame_generator)
  /\ (forall cfg evs i x,
      sessions (run' evs (boot cfg)) !! i = Some x ->
      Forall (fun chunk =>
                exists frame,
                  chunk = chunk_of frame
                  /\ chunk = b "--frame" ++ CRLF ++ b "Content-Type: image/jpeg" ++ CRLF
                             ++ CRLF ++ frame ++ CRLF)
             (wfile x))
  /\ (forall svc path,
      path <> "/" -> path <> "/stream" -> status (do_GET svc path) = 404).
Proof.
  split.
  { intros svc. rewrite do_GET_root. repeat split. eexists _, _. apply template_has_img. }
  split; [by intros svc; rewrite do_GET_stream|].
  split; [done|].
  split.
  - intros cfg evs i x Hx.
    eapply Forall_impl; [exact (inv_wfile _ (Inv_reachable cfg evs) i x Hx)|].
    intros chunk [frame ->]. exists frame. split; [done|].
    unfold chunk_of, boundary. by rewrite <- !app_assoc.
  - intros svc path H1 H2. by rewrite do_GET_other.
Qed.

(** C10: with no service registered, [GET /stream] is still answered
    200 with the multipart content type, and then nothing is written:
    no generator is made, and the status is not 404. *)
Theorem do_GET_stream_without_service :
  do_GET None "/stream"
  = {| status := 200;
       headers := [("Content-Type", "multipart/x-mixed-replace; boundary=frame")];
       body := NoBody |}
  /\ status (do_GET None "/stream") <> 404.
Proof. split; [reflexivity | done]. Qed.

End Properties.

(** * The properties on sample runs *)

Local Abbreviation sample_step := (step sample_imencode sample_IMWRITE_JPEG_QUALITY).
Local Abbreviation sample_run := (run sample_imencode sample_IMWRITE_JPEG_QUALITY).

(** The sample encoder at quality 80 puts the byte 80 ([P]) first. *)
Example sample_encoded_A :
  sample_imencode ".jpg" frame_A [1; 80] = Some (true, b "PA").
Proof. reflexivity. Qed.

(** The slow consumer saw frame A as 1, and is now handed frame C as
    3, never frame B. *)
Lemma session_versions_strictly_increasing_witness :
  delivered (sample_run slow_consumer_run (boot load_config)) (Run 0%nat true : Event bytes)
  = Some (0%nat, b "PC", 3)
  /\ (last_of (sample_run slow_consumer_run (boot load_config)) 0 < 3
      /\ 3 = _frame_seq (service (sample_run slow_consumer_run (boot load_config)))
      /\ _latest_original (service (sample_run slow_consumer_run (boot load_config)))
         = Some (b "PC")
      /\ last_of (sample_step (sample_run slow_consumer_run (boot load_config))
                              (Run 0%nat true : Event bytes)) 0 = 3)
  /\ StronglySorted Z.lt
       (versions sample_imencode sample_IMWRITE_JPEG_QUALITY 0
                 slow_consumer_run (boot load_config)).
Proof.
  split; [vm_compute; reflexivity|].
  split.
  - apply (proj1 (session_versions_strictly_increasing
                    sample_imencode sample_IMWRITE_JPEG_QUALITY
                    load_config slow_consumer_run 0%nat)
                 (Run 0%nat true : Event bytes) (b "PC") 3).
    vm_compute. reflexivity.
  - apply (proj2 (session_versions_strictly_increasing
                    sample_imencode sample_IMWRITE_JPEG_QUALITY
                    load_config slow_consumer_run 0%nat)).
Defined.

Example slow_consumer_versions :
  versions sample_imencode sample_IMWRITE_JPEG_QUALITY 0
           (slow_consumer_run ++ [Run 0%nat true]) (boot load_config) = [1; 3].
Proof. vm_compute. reflexivity. Qed.

(** Connection 0 is inside the wait of line 77 when [stop] runs, and
    is still inside it afterwards: [stop] does not wake it.  A publish
    in the same state does. *)
Lemma stop_does_not_wake_waiter :
  gen <$> sessions (sample_run waiting_run (boot load_config)) !! 0%nat
  = Some {| last_seq := 1; pc := Waiting |}
  /\ _stop (service (sample_step (sample_run waiting_run (boot load_config)) Stop)) = true
  /\ gen <$> sessions (sample_step (sample_run waiting_run (boot load_config)) Stop) !! 0%nat
     = Some {| last_seq := 1; pc := Waiting |}
  /\ gen <$> sessions (sample_run [LoopCheck; LoopCycle (CaptureReturns (Some frame_B))]
                                  (sample_run waiting_run (boot load_config))) !! 0%nat
     = Some {| last_seq := 1; pc := InCondition |}.
Proof. vm_compute. repeat split; reflexivity. Qed.

(** The waiter of [waiting_run] after a stop: other threads run, its
    wait times out, and two steps later its handler has left the loop
    with the one chunk it had. *)
Lemma stop_releases_waiters_by_timeout_witness :
  sessions (sample_run [LoopCheck] (sample_step (sample_run waiting_run (boot load_config)) Stop))
    !! 0%nat
  = Some {| gen := {| last_seq := 1; pc := Waiting |};
            wfile := [chunk_of (b "PA")]; serving := true |}
  /\ exists y,
      sessions (sample_run (Timeout 0%nat :: [GET 1%nat "/stream"] ++ Run 0%nat true
                             :: [Run 1%nat true] ++ Run 0%nat false :: [])
                  (sample_run [LoopCheck]
                     (sample_step (sample_run waiting_run (boot load_config)) Stop)))
        !! 0%nat = Some y
      /\ serving y = false /\ wfile y = [chunk_of (b "PA")].
Proof.
  split; [vm_compute; reflexivity|].
  apply (proj2 (proj2 (proj2 (proj2 (proj2
           (stop_releases_waiters_by_timeout
              sample_imencode sample_IMWRITE_JPEG_QUALITY)))))
           (sample_run waiting_run (boot load_config)) [LoopCheck] 0%nat
           {| gen := {| last_seq := 1; pc := Waiting |};
              wfile := [chunk_of (b "PA")]; serving := true |}
           [GET 1%nat "/stream"] [Run 1%nat true] [] true false).
  vm_compute. reflexivity.
Defined.

(** Three failing captures, then frame A: one publish, counter 1. *)
Lemma failed_cycles_publish_nothing_witness :
  Forall (fun c => cycle_fails sample_imencode sample_IMWRITE_JPEG_QUALITY
                     load_config c = true) three_failures
  /\ cycle sample_imencode sample_IMWRITE_JPEG_QUALITY
       (CaptureReturns (Some [])) (init load_config) = (init load_config, false)
  /\ sample_step {| service := init load_config; loop_pc := LoopInCycle; sessions := ∅ |}
       (LoopCycle CaptureRaises) = boot load_config
  /\ (exists bgr buf,
        CaptureReturns (Some frame_A) = CaptureReturns (Some bgr)
        /\ sample_imencode ".jpg" bgr
             (encode_params sample_IMWRITE_JPEG_QUALITY load_config) = Some (true, buf)
        /\ cycle sample_imencode sample_IMWRITE_JPEG_QUALITY
             (CaptureReturns (Some frame_A)) (init load_config)
           = (publish buf (init load_config), true))
  /\ _loop sample_imencode sample_IMWRITE_JPEG_QUALITY
       (three_failures ++ [CaptureReturns (Some frame_A)]) (init load_config)
     = publish (b "PA") (init load_config)
  /\ service (sample_run (loop_events (three_failures ++ [CaptureReturns (Some frame_A)]))
                         (boot load_config))
     = publish (b "PA") (init load_config)
  /\ _frame_seq (service (sample_run
                   (loop_events (three_failures ++ [CaptureReturns (Some frame_A)]))
                   (boot load_config))) = 0 + 1.
Proof.
  pose proof (failed_cycles_publish_nothing sample_imencode sample_IMWRITE_JPEG_QUALITY)
    as (Hfail & Hstep & Hok & Hloop).
  assert (Forall (fun c => cycle_fails sample_imencode sample_IMWRITE_JPEG_QUALITY
                             load_config c = true) three_failures) as Hthree.
  { repeat constructor. }
  split; [exact Hthree|].
  split; [apply (Hfail (CaptureReturns (Some [])) (init load_config)); reflexivity|].
  split.
  { apply (Hstep CaptureRaises
             {| service := init load_config; loop_pc := LoopInCycle; sessions := ∅ |});
      reflexivity. }
  split; [apply (Hok (CaptureReturns (Some frame_A)) (init load_config)); reflexivity|].
  apply (Hloop three_failures frame_A (b "PA") (boot load_config));
    [reflexivity | reflexivity | exact Hthree | reflexivity].
Defined.

(** Frame A published once, two connections at -1: both are handed
    (A, 1). *)
Lemma same_frame_for_all_consumers_witness :
  delivered (sample_run two_consumers_run (boot load_config))
            (Run 0%nat true : Event bytes) = Some (0%nat, b "PA", 1)
  /\ delivered (sample_run [Run 0%nat true] (sample_run two_consumers_run (boot load_config)))
               (Run 1%nat true : Event bytes) = Some (1%nat, b "PA", 1)
  /\ ((Some (b "PA"), 1) = (Some (b "PA"), 1)
      /\ (Some (b "PA"), 1)
         = (_latest_original (service (sample_run two_consumers_run (boot load_config))),
            _frame_seq (service (sample_run two_consumers_run (boot load_config)))))
  /\ (b "PA", 1) = (b "PA", 1).
Proof.
  pose proof (same_frame_for_all_consumers sample_imencode sample_IMWRITE_JPEG_QUALITY)
    as (Hpair & _ & Hrun).
  split; [vm_compute; reflexivity|].
  split; [vm_compute; reflexivity|].
  split.
  - apply (Hpair (service (sample_run two_consumers_run (boot load_config))) (-1) (-1));
      reflexivity.
  - apply (Hrun (sample_run two_consumers_run (boot load_config))
             [Run 0%nat true] (Run 0%nat true) (Run 1%nat true) 0%nat 1%nat).
    + vm_compute. reflexivity.
    + reflexivity.
    + vm_compute. reflexivity.
Defined.

(** The chunk for frame A. *)
Lemma yielded_chunk_is_one_part_witness :
  resume (publish frame_A (init load_config)) {| last_seq := -1; pc := InCondition |}
  = ({| last_seq := 1; pc := Suspended |},
     Some (b "--frame" ++ CRLF ++ b "Content-Type: image/jpeg" ++ CRLF ++ CRLF
           ++ frame_A ++ CRLF))
  /\ (exists frame,
        _latest_original (publish frame_A (init load_config)) = Some frame
        /\ b "--frame" ++ CRLF ++ b "Content-Type: image/jpeg" ++ CRLF ++ CRLF
             ++ frame_A ++ CRLF
           = b "--frame" ++ CRLF ++ b "Content-Type: image/jpeg" ++ CRLF ++ CRLF
             ++ frame ++ CRLF
        /\ last_seq {| last_seq := 1; pc := Suspended |}
           = _frame_seq (publish frame_A (init load_config)))
  /\ sessions (sample_step (sample_run two_consumers_run (boot load_config))
                           (Run 0%nat true)) !! 0%nat
     = Some {| gen := {| last_seq := 1; pc := Suspended |};
               wfile := [] ++ [chunk_of (b "PA")];
               serving := true |}.
Proof.
  pose proof (yielded_chunk_is_one_part sample_imencode sample_IMWRITE_JPEG_QUALITY)
    as [Hchunk Hwrite].
  split; [reflexivity|].
  split.
  - apply (Hchunk (publish frame_A (init load_config))
             {| last_seq := -1; pc := InCondition |}). reflexivity.
  - apply (Hwrite (sample_run two_consumers_run (boot load_config)) 0%nat
             {| gen := {| last_seq := -1; pc := InCondition |}; wfile := [];
                serving := true |} (b "PA") 1).
    + vm_compute. reflexivity.
    + vm_compute. reflexivity.
Defined.

(** A configured quality of 100 lies in 1..100, and the encoder is
    handed 95; a configured quality of 5 lies in 1..100, and the
    encoder is handed 10. *)
Lemma encoder_quality_not_configured_value :
  (1 <= jpeg_quality (with_quality 100) <= 100
   /\ encode_params sample_IMWRITE_JPEG_QUALITY (with_quality 100) = [1; 95]
   /\ 95 <> jpeg_quality (with_quality 100))
  /\ (1 <= jpeg_quality (with_quality 5) <= 100
      /\ encode_params sample_IMWRITE_JPEG_QUALITY (with_quality 5) = [1; 10]
      /\ 10 <> jpeg_quality (with_quality 5))
  /\ (sample_imencode ".jpg" frame_A [1; 100] = Some (true, b "dA")
      /\ (cycle sample_imencode sample_IMWRITE_JPEG_QUALITY
            (CaptureReturns (Some frame_A)) (init (with_quality 100))).1
         <> publish (b "dA") (init (with_quality 100))).
Proof. vm_compute. repeat split; (lia || discriminate || done). Qed.

(** Quality 80, the default, reaches the encoder as 80. *)
Lemma encoder_quality_is_clamped_witness :
  10 <= jpeg_quality load_config <= 95
  /\ encode_params sample_IMWRITE_JPEG_QUALITY load_config
     = [sample_IMWRITE_JPEG_QUALITY; jpeg_quality load_config]
  /\ loop_jpeg_quality (with_quality 5) = 10
  /\ loop_jpeg_quality (with_quality 100) = 95.
Proof.
  pose proof (encoder_quality_is_clamped sample_imencode sample_IMWRITE_JPEG_QUALITY)
    as (Hin & Hout & _).
  split; [simpl; lia|].
  split; [apply (Hin load_config); simpl; lia|].
  split.
  - apply (proj1 (proj2 (Hout (with_quality 5)))). simpl. lia.
  - apply (proj2 (proj2 (Hout (with_quality 100)))). simpl. lia.
Defined.

(** A path that is neither of the two, and what a connection of the
    slow consumer's run has been written. *)
Lemma do_GET_routes_witness :
  status (do_GET (Some (init load_config)) "/favicon.ico") = 404
  /\ Forall (fun chunk =>
               exists frame,
                 chunk = chunk_of frame
                 /\ chunk = b "--frame" ++ CRLF ++ b "Content-Type: image/jpeg" ++ CRLF
                            ++ CRLF ++ frame ++ CRLF)
            [chunk_of (b "PA"); chunk_of (b "PC")].
Proof.
  pose proof (do_GET_routes sample_imencode sample_IMWRITE_JPEG_QUALITY)
    as (_ & _ & _ & Hparts & Hother).
  split.
  - apply (Hother (Some (init load_config)) "/favicon.ico"); discriminate.
  - apply (Hparts load_config (slow_consumer_run ++ [Run 0%nat true]) 0%nat
             {| gen := {| last_seq := 3; pc := Suspended |};
                wfile := [chunk_of (b "PA"); chunk_of (b "PC")]; serving := true |}).
    vm_compute. reflexivity.
Defined.

(** * Further properties of the broadcast core *)

Section Coverage.

Context {RawFrame : Type}.
Variable imencode : string -> RawFrame -> list Z -> option (bool * bytes).
Variable IMWRITE_JPEG_QUALITY : Z.

Local Abbreviation cycle' := (cycle imencode IMWRITE_JPEG_QUALITY).
Local Abbreviation step' := (step imencode IMWRITE_JPEG_QUALITY).
Local Abbreviation run' := (run imencode IMWRITE_JPEG_QUALITY).
Local Abbreviation loop' := (_loop imencode IMWRITE_JPEG_QUALITY).
Local Abbreviation publishes_at' := (publishes_at imencode IMWRITE_JPEG_QUALITY).
Local Abbreviation publishes' := (publishes imencode IMWRITE_JPEG_QUALITY).
Local Abbreviation cycle_fails' := (cycle_fails imencode IMWRITE_JPEG_QUALITY).
Local Abbreviation cycle_raises' := (cycle_raises imencode IMWRITE_JPEG_QUALITY).

Implicit Types (s : Service) (st : System) (e : Event RawFrame) (g : Generator)
  (x y : Session).

(** *** The invariant of the connections *)

Lemma SessionInv_boot cfg : SessionInv (boot cfg).
Proof. split; simpl; intros i x H; by rewrite lookup_empty in H. Qed.

(** What one step of a handler does to its connection, by the outcome
    of [resume]. *)
Lemma run_session_cases s ok x :
  (serving x = false /\ run_session s ok x = x)
  \/ (serving x = true /\ (resume s (gen x)).2 = None
      /\ last_seq (resume s (gen x)).1 = last_seq (gen x)
      /\ run_session s ok x
         = {| gen := (resume s (gen x)).1; wfile := wfile x;
              serving := match pc (resume s (gen x)).1 with
                         | Exhausted => false | _ => true end |})
  \/ (exists frame,
        serving x = true /\ pc (gen x) = InCondition /\ _stop s = false
        /\ last_seq (gen x) <> _frame_seq s /\ _latest_original s = Some frame
        /\ run_session s ok x
           = {| gen := {| last_seq := _frame_seq s; pc := Suspended |};
                wfile := if ok then wfile x ++ [chunk_of frame] else wfile x;
                serving := ok |}).
Proof.
  unfold run_session. destruct (serving x) eqn:Hs; [|auto].
  destruct (resume_cases s (gen x)) as [[Hl Hn] | (frame & Hpc & Hstop & Hne & Hl & Hr)].
  - right. left. destruct (resume s (gen x)) as [g' [chunk|]]; simpl in *; [done|auto].
  - right. right. exists frame. rewrite Hr. by destruct ok.
Qed.

(** A step of the generator that ends inside the wait came from line
    76 with nothing new, or was inside the wait already. *)
Lemma resume_Waiting s g :
  pc (resume s g).1 = Waiting ->
  (pc g = Waiting /\ (resume s g).1 = g)
  \/ (pc g = InCondition /\ last_seq g = _frame_seq s /\ _stop s = false).
Proof.
  destruct g as [l p].
  unfold resume, critical_section, critical_section_reads. simpl.
  destruct p; simpl; try done; auto.
  - destruct (_stop s); simpl; done.
  - destruct (Z.eqb_spec l (_frame_seq s)); destruct (_stop s); simpl; auto;
      try done; by destruct (_latest_original s).
Qed.

Lemma wake_not_Waiting g : pc (wake g) <> Waiting.
Proof. unfold wake. destruct (pc g) eqn:H; simpl; congruence. Qed.

Lemma wake_Exhausted g : pc (wake g) = Exhausted -> pc g = Exhausted.
Proof. unfold wake. destruct (pc g) eqn:H; simpl; congruence. Qed.

Lemma run_session_keeps s ok x :
  0 <= _frame_seq s ->
  (_latest_original s = None <-> _frame_seq s = 0) ->
  -1 <= last_seq (gen x) <= _frame_seq s ->
  (pc (gen x) = Waiting -> last_seq (gen x) = _frame_seq s) ->
  (last_seq (gen x) = -1 \/ 1 <= last_seq (gen x)) ->
  Z.of_nat (length (wfile x)) <= Z.max 0 (last_seq (gen x)) ->
  (serving x = false -> pc (gen x) <> Waiting) ->
  (serving x = true -> pc (gen x) <> Exhausted) ->
  (pc (gen (run_session s ok x)) = Waiting ->
     last_seq (gen (run_session s ok x)) = _frame_seq s)
  /\ (last_seq (gen (run_session s ok x)) = -1
      \/ 1 <= last_seq (gen (run_session s ok x)))
  /\ Z.of_nat (length (wfile (run_session s ok x)))
     <= Z.max 0 (last_seq (gen (run_session s ok x)))
  /\ (serving (run_session s ok x) = false -> pc (gen (run_session s ok x)) <> Waiting)
  /\ (serving (run_session s ok x) = true -> pc (gen (run_session s ok x)) <> Exhausted).
Proof.
  intros Hnn Habs Hrange Hw Hseen Hcount Hclosed Hserving.
  destruct (run_session_cases s ok x)
    as [[Hs ->] | [(Hs & Hn & Hl & ->) | (frame & Hs & Hpc & Hstop & Hne & Hlat & ->)]].
  - auto.
  - cbn [gen wfile serving]. rewrite Hl. repeat split; try done.
    + intros HW. apply resume_Waiting in HW as [[HW _] | (_ & ? & _)]; auto.
    + destruct (pc (resume s (gen x)).1) eqn:Hp; done.
    + destruct (pc (resume s (gen x)).1) eqn:Hp; done.
  - cbn [gen wfile serving last_seq pc].
    assert (1 <= _frame_seq s) as Hge.
    { destruct (Z.eq_dec (_frame_seq s) 0) as [H0|H0]; [|lia].
      apply Habs in H0. congruence. }
    repeat split; try done.
    + right. done.
    + destruct ok; [rewrite length_app; simpl|]; lia.
Qed.

Lemma SessionInv_step st e : Inv st -> SessionInv st -> SessionInv (step' st e).
Proof.
  intros [Hnn Habs Hlast _] [Hw Hseen Hcount Hclosed Hserving].
  destruct e as [| c | | j path | j ok | j]; cbn [step].
  - destruct (loop_pc st); by split.
  - destruct (loop_pc st); try by split.
    destruct (cycle_cases imencode IMWRITE_JPEG_QUALITY c (service st)) as [-> | [buf ->]].
    + by split.
    + split; cbn [service sessions notify_all]; intros i x; rewrite lookup_fmap;
        destruct (sessions st !! i) as [y|] eqn:Hy; try done;
        intros [= <-]; cbn [gen wfile serving]; rewrite ?wake_last_seq; eauto.
      * intros HW. by apply wake_not_Waiting in HW.
      * intros _. apply wake_not_Waiting.
      * intros Hs HE%wake_Exhausted. by apply (Hserving i y).
  - by split.
  - destruct (sessions st !! j) as [y|] eqn:Hy; [by split|].
    destruct (body _) as [| |g] eqn:Hb; try by split.
    assert (g = frame_generator) as ->.
    { revert Hb. unfold do_GET.
      destruct (String.eqb path "/"); [done|].
      destruct (String.eqb path "/stream"); [|done]. by intros [= <-]. }
    split; cbn [service sessions]; intros i x; rewrite lookup_insert;
      case_decide; eauto; intros [= <-]; simpl; auto; done.
  - assert (forall i x, alter (run_session (service st) ok) j (sessions st) !! i = Some x ->
              (exists y, sessions st !! i = Some y /\ i = j
                         /\ x = run_session (service st) ok y)
              \/ (sessions st !! i = Some x /\ i <> j)) as Hcases.
    { intros i x. rewrite lookup_alter. case_decide.
      - subst i. destruct (sessions st !! j) as [y|]; [|done].
        intros [= <-]. left. eauto.
      - auto. }
    split; cbn [service sessions]; intros i x Hx;
      destruct (Hcases i x Hx) as [(y & Hy & -> & ->) | [Hy Hne]]; eauto;
      destruct (run_session_keeps (service st) ok y Hnn Habs (Hlast _ _ Hy)
                  (Hw _ _ Hy) (Hseen _ _ Hy) (Hcount _ _ Hy) (Hclosed _ _ Hy)
                  (Hserving _ _ Hy))
        as (H1 & H2 & H3 & H4 & H5); done.
  - split; cbn [service sessions]; intros i x; rewrite lookup_alter;
      case_decide; eauto; subst i;
      destruct (sessions st !! j) as [y|] eqn:Hy; try done;
      intros [= <-]; cbn [gen wfile serving]; rewrite ?wake_last_seq; eauto.
    + intros HW. by apply wake_not_Waiting in HW.
    + intros _. apply wake_not_Waiting.
    + intros Hs HE%wake_Exhausted. by apply (Hserving j y).
Qed.

Lemma SessionInv_run evs st : Inv st -> SessionInv st -> SessionInv (run' evs st).
Proof.
  revert st. induction evs as [|e evs IH]; intros st HI HS; [done|].
  apply IH; [by apply Inv_step | by apply SessionInv_step].
Qed.

Lemma SessionInv_reachable cfg evs : SessionInv (run' evs (boot cfg)).
Proof. apply SessionInv_run; [apply Inv_boot | apply SessionInv_boot]. Qed.

(** *** The slot *)

Lemma step_config st e : config (service (step' st e)) = config (service st).
Proof.
  destruct e; cbn [step]; auto.
  - by destruct (loop_pc st).
  - destruct (loop_pc st); auto.
    destruct (cycle_cases imencode IMWRITE_JPEG_QUALITY c (service st))
      as [-> | [buf ->]]; done.
  - destruct (sessions st !! i); [done|]. by destruct (body _).
Qed.

Lemma run_config evs st : config (service (run' evs st)) = config (service st).
Proof.
  revert st. induction evs as [|e evs IH]; intros st; [done|].
  change (run' (e :: evs) st) with (run' evs (step' st e)).
  by rewrite IH, step_config.
Qed.

(** X1: at every moment of a run from start-up the frame slot is empty
    exactly when no publish has been made yet, and the configuration
    the service was created with is still in place. *)
Theorem frame_absent_only_before_first_publish cfg evs :
  (_latest_original (service (run' evs (boot cfg))) = None
   <-> publishes' evs (boot cfg) = 0%nat)
  /\ config (service (run' evs (boot cfg))) = cfg.
Proof.
  split; [|by rewrite run_config].
  pose proof (inv_absent _ (Inv_reachable imencode IMWRITE_JPEG_QUALITY cfg evs)) as Habs.
  pose proof (run_frame_seq_publishes imencode IMWRITE_JPEG_QUALITY evs (boot cfg)) as Hseq.
  simpl in Hseq. rewrite Habs, Hseq. lia.
Qed.

(** *** A waiting connection *)

(** X2: no wake-up is lost: at every moment of a run, a connection
    that is inside the wait of line 77 has already been handed the
    current frame (its [last_seq] is the current [_frame_seq], which is
    at least 1), and its handler is still serving it. *)
Theorem waiter_has_seen_current_frame cfg evs i x :
  sessions (run' evs (boot cfg)) !! i = Some x ->
  pc (gen x) = Waiting ->
  last_seq (gen x) = _frame_seq (service (run' evs (boot cfg)))
  /\ 1 <= last_seq (gen x)
  /\ serving x = true
  /\ exists frame, _latest_original (service (run' evs (boot cfg))) = Some frame.
Proof.
  intros Hx HW.
  pose proof (Inv_reachable imencode IMWRITE_JPEG_QUALITY cfg evs) as HI.
  pose proof (SessionInv_reachable cfg evs) as HS.
  set (st := run' evs (boot cfg)) in *.
  pose proof (inv_waiting _ HS i x Hx HW) as Heq.
  pose proof (inv_last _ HI i x Hx) as Hrange.
  pose proof (inv_seq_nonneg _ HI) as Hnn.
  assert (1 <= last_seq (gen x)) as Hge.
  { destruct (inv_seen _ HS i x Hx); lia. }
  repeat split; try done.
  - destruct (serving x) eqn:Hs; [done|].
    by destruct (inv_closed _ HS i x Hx Hs).
  - destruct (_latest_original (service st)) as [frame|] eqn:Hl; [eauto|].
    apply (inv_absent _ HI) in Hl. lia.
Qed.

(** *** What is written to a connection *)

(** X3: a connection is never written more chunks than frames have
    been published: the number of chunks is at most the sequence
    number it last saw, which is at most the number of publishes. *)
Theorem chunks_written_bounded_by_publishes cfg evs i x :
  sessions (run' evs (boot cfg)) !! i = Some x ->
  Z.of_nat (length (wfile x)) <= Z.max 0 (last_seq (gen x))
  /\ (length (wfile x) <= publishes' evs (boot cfg))%nat.
Proof.
  intros Hx.
  pose proof (inv_last _ (Inv_reachable imencode IMWRITE_JPEG_QUALITY cfg evs) i x Hx)
    as Hrange.
  pose proof (inv_count _ (SessionInv_reachable cfg evs) i x Hx) as Hcount.
  pose proof (run_frame_seq_publishes imencode IMWRITE_JPEG_QUALITY evs (boot cfg)) as Hseq.
  simpl in Hseq. split; [done | lia].
Qed.

Lemma run_session_prefix s ok x : wfile x `prefix_of` wfile (run_session s ok x).
Proof.
  destruct (run_session_cases s ok x)
    as [[_ ->] | [(_ & _ & _ & ->) | (frame & _ & _ & _ & _ & _ & ->)]]; simpl.
  - done.
  - done.
  - destruct ok; [by apply prefix_app_r | done].
Qed.

Lemma step_session_prefix st e i x :
  sessions st !! i = Some x ->
  exists y, sessions (step' st e) !! i = Some y /\ wfile x `prefix_of` wfile y.
Proof.
  intros Hx. destruct e as [| c | | j path | j ok | j]; cbn [step].
  - destruct (loop_pc st); eauto.
  - destruct (loop_pc st); eauto.
    destruct (cycle' c (service st)) as [s' [|]]; cbn [sessions notify_all]; eauto.
    rewrite lookup_fmap, Hx. simpl. eauto.
  - eauto.
  - destruct (sessions st !! j) as [y|] eqn:Hy; eauto.
    destruct (body _); eauto.
    cbn [sessions]. rewrite lookup_insert_ne by congruence. eauto.
  - cbn [sessions]. rewrite lookup_alter. case_decide; eauto.
    subst j. rewrite Hx. simpl. eexists. split; [done|]. apply run_session_prefix.
  - cbn [sessions]. rewrite lookup_alter. case_decide; eauto.
    subst j. rewrite Hx. simpl. eauto.
Qed.

(** X4: what has been written to a connection is never taken back or
    changed: through any steps of any threads the connection stays, and
    the chunks written to it before are a prefix of the chunks written
    to it after. *)
Theorem written_chunks_append_only evs st i x :
  sessions st !! i = Some x ->
  exists y, sessions (run imencode IMWRITE_JPEG_QUALITY evs st) !! i = Some y
            /\ wfile x `prefix_of` wfile y.
Proof.
  revert st x. induction evs as [|e evs IH]; intros st x Hx; [eauto|].
  destruct (step_session_prefix st e i x Hx) as (y & Hy & Hp).
  destruct (IH (step' st e) y Hy) as (z & Hz & Hp').
  exists z. split; [exact Hz|]. by etransitivity.
Qed.

(** *** One connection and the others *)

Lemma step_of_connection st e i :
  of_connection i e = true ->
  service (step' st e) = service st
  /\ loop_pc (step' st e) = loop_pc st
  /\ forall j, j <> i -> sessions (step' st e) !! j = sessions st !! j.
Proof.
  destruct e as [| c | | k path | k ok | k]; simpl; try done;
    intros ->%bool_decide_eq_true.
  - destruct (sessions st !! i) as [y|] eqn:Hy; [done|].
    destruct (body _); try done.
    repeat split. intros j Hj. simpl. by rewrite lookup_insert_ne.
  - repeat split. intros j Hj. by rewrite lookup_alter_ne.
  - repeat split. intros j Hj. by rewrite lookup_alter_ne.
Qed.

(** X5: whatever one connection does (being opened, its handler's
    steps with writes that succeed or fail, its wait timing out), the
    service, the loop and every other connection are as they were; and
    a write that fails when a frame is yielded ends that handler with
    nothing added to what was written. *)
Theorem connection_steps_are_local :
  (forall evs st i,
      forallb (of_connection i) evs = true ->
      service (run' evs st) = service st
      /\ loop_pc (run' evs st) = loop_pc st
      /\ forall j, j <> i -> sessions (run' evs st) !! j = sessions st !! j)
  /\ (forall st i x frame v,
      sessions st !! i = Some x ->
      delivered st (Run i false : Event RawFrame) = Some (i, frame, v) ->
      sessions (step' st (Run i false)) !! i
      = Some {| gen := {| last_seq := v; pc := Suspended |};
                wfile := wfile x; serving := false |}).
Proof.
  split.
  - induction evs as [|e evs IH]; intros st i Hall; [done|].
    simpl in Hall. apply andb_true_iff in Hall as [He Hall].
    change (run' (e :: evs) st) with (run' evs (step' st e)).
    destruct (IH (step' st e) i Hall) as (-> & -> & Hothers).
    destruct (step_of_connection st e i He) as (-> & -> & Hothers').
    repeat split. intros j Hj. by rewrite Hothers, Hothers'.
  - intros st i x frame v Hx Hd.
    destruct (delivered_resume _ _ _ _ _ Hd) as (y & Hy & Hr).
    assert (y = x) as -> by congruence.
    apply delivered_inv in Hd as (_ & z & _ & Hz & Hs & _).
    assert (z = x) as -> by congruence.
    cbn [step sessions]. rewrite lookup_alter_eq, Hx. simpl.
    unfold run_session. by rewrite Hs, Hr.
Qed.

Lemma step_closed_session st e i x :
  sessions st !! i = Some x -> serving x = false -> pc (gen x) <> Waiting ->
  sessions (step' st e) !! i = Some x.
Proof.
  intros Hx Hs Hpc. destruct e as [| c | | j path | j ok | j]; cbn [step].
  - by destruct (loop_pc st).
  - destruct (loop_pc st); try done.
    destruct (cycle' c (service st)) as [s' [|]]; cbn [sessions notify_all]; [|done].
    rewrite lookup_fmap, Hx. simpl. f_equal.
    destruct x as [[l p] w sv]. simpl in *. unfold wake. simpl. by destruct p.
  - done.
  - destruct (sessions st !! j) as [y|] eqn:Hy; [done|].
    destruct (body _); try done.
    cbn [sessions]. rewrite lookup_insert_ne by congruence. done.
  - cbn [sessions]. rewrite lookup_alter. case_decide; [|done].
    subst j. rewrite Hx. simpl. unfold run_session. by rewrite Hs.
  - cbn [sessions]. rewrite lookup_alter. case_decide; [|done].
    subst j. rewrite Hx. simpl. f_equal.
    destruct x as [[l p] w sv]. simpl in *. unfold wake. simpl. by destruct p.
Qed.

(** X6: once a handler has left its loop (the generator was exhausted
    or a write failed), its connection is final: no step of any thread,
    no publish and no timeout, changes its generator or what was
    written to it. *)
Theorem closed_connection_is_final cfg evs evs' i x :
  sessions (run' evs (boot cfg)) !! i = Some x ->
  serving x = false ->
  sessions (run' evs' (run' evs (boot cfg))) !! i = Some x.
Proof.
  intros Hx Hs.
  pose proof (inv_closed _ (SessionInv_reachable cfg evs) i x Hx Hs) as Hpc.
  generalize dependent (run' evs (boot cfg)). intros st Hx.
  revert st Hx. induction evs' as [|e evs' IH]; intros st Hx; [done|].
  apply IH. by apply step_closed_session.
Qed.

(** *** The loop after a stop *)

Lemma publishes_stopped evs st :
  _stop (service st) = true ->
  (publishes' evs st <= match loop_pc st with LoopInCycle => 1 | _ => 0 end)%nat.
Proof.
  revert st. induction evs as [|e evs IH]; intros st Hstop.
  - simpl. lia.
  - cbn [publishes].
    pose proof (stopped_step imencode IMWRITE_JPEG_QUALITY st e Hstop) as Hstop'.
    specialize (IH (step' st e) Hstop'). revert IH.
    unfold publishes_at. destruct e as [| c | | j path | j ok | j]; cbn [step].
    + destruct (loop_pc st) eqn:Hpc; cbn [loop_pc]; rewrite ?Hstop, ?Hpc; lia.
    + destruct (loop_pc st) eqn:Hpc; cbn [loop_pc]; rewrite ?Hpc; try lia.
      destruct (cycle' c (service st)) as [s' [|]]; cbn [loop_pc snd];
        destruct (cycle_raises _ _ _ _); lia.
    + cbn [loop_pc]. destruct (loop_pc st); lia.
    + destruct (sessions st !! j); [destruct (loop_pc st); lia|].
      destruct (body _); cbn [loop_pc]; destruct (loop_pc st); lia.
    + cbn [loop_pc]. destruct (loop_pc st); lia.
    + cbn [loop_pc]. destruct (loop_pc st); lia.
Qed.

(** X7: after [stop] the loop publishes at most once more, and only
    if it had already passed the test of line 92 when [stop] ran: the
    cycle in progress is finished, and no further cycle begins. *)
Theorem at_most_one_publish_after_stop st evs :
  (publishes imencode IMWRITE_JPEG_QUALITY evs (step' st Stop) <= 1)%nat
  /\ (loop_pc st <> LoopInCycle -> publishes' evs (step' st Stop) = 0%nat)
  /\ _frame_seq (service (run' evs (step' st Stop))) <= _frame_seq (service st) + 1.
Proof.
  pose proof (publishes_stopped evs (step' st Stop) eq_refl) as H.
  pose proof (run_frame_seq_publishes imencode IMWRITE_JPEG_QUALITY evs (step' st Stop))
    as Hseq.
  cbn [step loop_pc service stop _frame_seq] in *.
  repeat split.
  - destruct (loop_pc st); lia.
  - intros Hpc. destruct (loop_pc st); lia || done.
  - rewrite Hseq. destruct (loop_pc st); lia.
Qed.

(** *** Waiting and not waiting *)

Lemma step_Run_session st i ok x :
  sessions st !! i = Some x ->
  sessions (step' st (Run i ok)) !! i = Some (run_session (service st) ok x)
  /\ service (step' st (Run i ok)) = service st.
Proof. intros Hx. cbn [step sessions service]. by rewrite lookup_alter_eq, Hx. Qed.

Lemma step_Timeout_session st i x :
  sessions st !! i = Some x ->
  sessions (step' st (Timeout i)) !! i
  = Some {| gen := wake (gen x); wfile := wfile x; serving := serving x |}
  /\ service (step' st (Timeout i)) = service st.
Proof. intros Hx. cbn [step sessions service]. by rewrite lookup_alter_eq, Hx. Qed.

(** X8: before the first publish no connection ever waits: every
    connection still has [last_seq = -1], nothing written and is not
    inside the wait of line 77; and while [stop] is not set, a handler
    at line 74 is back at line 74 after two steps, the connection
    exactly as it was: the generator polls without blocking until the
    first frame is there. *)
Theorem no_wait_before_first_frame cfg evs i x :
  publishes' evs (boot cfg) = 0%nat ->
  sessions (run' evs (boot cfg)) !! i = Some x ->
  (last_seq (gen x) = -1 /\ wfile x = [] /\ pc (gen x) <> Waiting)
  /\ (serving x = true -> pc (gen x) = AtTop ->
      _stop (service (run' evs (boot cfg))) = false ->
      forall ok ok',
        sessions (step' (run' evs (boot cfg)) (Run i ok)) !! i
        = Some {| gen := {| last_seq := -1; pc := InCondition |};
                  wfile := []; serving := true |}
        /\ sessions (run' [Run i ok; Run i ok'] (run' evs (boot cfg))) !! i = Some x).
Proof.
  intros Hpub Hx.
  pose proof (Inv_reachable imencode IMWRITE_JPEG_QUALITY cfg evs) as HI.
  pose proof (SessionInv_reachable cfg evs) as HS.
  pose proof (run_frame_seq_publishes imencode IMWRITE_JPEG_QUALITY evs (boot cfg)) as Hseq.
  set (st := run' evs (boot cfg)) in *. simpl in Hseq.
  assert (_frame_seq (service st) = 0) as H0 by lia.
  pose proof (inv_last _ HI i x Hx) as Hrange.
  assert (last_seq (gen x) = -1) as Hlast.
  { destruct (inv_seen _ HS i x Hx); lia. }
  assert (wfile x = []) as Hw.
  { pose proof (inv_count _ HS i x Hx) as Hc. rewrite Hlast in Hc.
    destruct (wfile x); [done | simpl in Hc; lia]. }
  assert (_latest_original (service st) = None) as Hnone by by apply (inv_absent _ HI).
  split.
  { repeat split; try done.
    intros HW. pose proof (inv_waiting _ HS i x Hx HW). lia. }
  intros Hs Hpc Hstop ok ok'.
  destruct x as [[l p] w sv]. simpl in Hs, Hpc, Hlast, Hw. subst l p w sv.
  destruct (step_Run_session st i ok _ Hx) as [Hx1 Hs1].
  assert (run_session (service st) ok
            {| gen := {| last_seq := -1; pc := AtTop |}; wfile := []; serving := true |}
          = {| gen := {| last_seq := -1; pc := InCondition |}; wfile := [];
               serving := true |}) as Hr1.
  { unfold run_session, resume. simpl. by rewrite Hstop. }
  rewrite Hr1 in Hx1. split; [exact Hx1|].
  change (run' [Run i ok; Run i ok'] st)
    with (step' (step' st (Run i ok)) (Run i ok')).
  destruct (step_Run_session _ i ok' _ Hx1) as [-> _]. rewrite Hs1. f_equal.
  unfold run_session, resume, critical_section, critical_section_reads. simpl.
  rewrite H0, Hstop, Hnone. done.
Qed.

(** X9: a wait that times out with nothing new writes nothing and
    goes back to waiting: at any moment of a run with [stop] not set, a
    connection inside the wait is, after its timeout and one step of
    its handler, exactly as it was. *)
Theorem timeout_without_news_waits_again cfg evs i x ok :
  sessions (run' evs (boot cfg)) !! i = Some x ->
  pc (gen x) = Waiting ->
  _stop (service (run' evs (boot cfg))) = false ->
  sessions (run' [Timeout i; Run i ok] (run' evs (boot cfg))) !! i = Some x.
Proof.
  intros Hx HW Hstop.
  pose proof (SessionInv_reachable cfg evs) as HS.
  set (st := run' evs (boot cfg)) in *.
  pose proof (inv_waiting _ HS i x Hx HW) as Heq.
  assert (serving x = true) as Hs.
  { destruct (serving x) eqn:Hs; [done|]. by destruct (inv_closed _ HS i x Hx Hs). }
  change (run' [Timeout i; Run i ok] st)
    with (step' (step' st (Timeout i)) (Run i ok)).
  destruct (step_Timeout_session st i x Hx) as [Hx1 Hs1].
  destruct (step_Run_session _ i ok _ Hx1) as [-> _]. rewrite Hs1. f_equal.
  destruct x as [[l p] w sv]. simpl in HW, Hs, Heq. subst p sv l.
  unfold run_session, wake, resume, critical_section, critical_section_reads. simpl.
  by rewrite Z.eqb_refl, Hstop.
Qed.

(** X10: a publish wakes every waiter, and the woken waiter's next
    step hands it the new frame: after a publishing cycle no connection
    is inside the wait; and a connection that was waiting, with [stop]
    not set, has after the cycle and one step of its handler the chunk
    of the new buffer appended and the new sequence number as
    [last_seq]. *)
Theorem publish_wakes_and_delivers :
  (forall st c j y,
      publishes_at' st (LoopCycle c) = true ->
      sessions (step' st (LoopCycle c)) !! j = Some y ->
      pc (gen y) <> Waiting)
  /\ (forall cfg evs i x bgr buf,
      sessions (run' evs (boot cfg)) !! i = Some x ->
      pc (gen x) = Waiting ->
      _stop (service (run' evs (boot cfg))) = false ->
      loop_pc (run' evs (boot cfg)) = LoopInCycle ->
      imencode ".jpg" bgr (encode_params IMWRITE_JPEG_QUALITY cfg) = Some (true, buf) ->
      sessions (run' [LoopCycle (CaptureReturns (Some bgr)); Run i true]
                     (run' evs (boot cfg))) !! i
      = Some {| gen := {| last_seq := _frame_seq (service (run' evs (boot cfg))) + 1;
                          pc := Suspended |};
                wfile := wfile x ++ [chunk_of buf];
                serving := true |}).
Proof.
  split.
  - intros st c j y. unfold publishes_at. cbn [step].
    destruct (loop_pc st); try done.
    destruct (cycle' c (service st)) as [s' [|]]; [|done].
    intros _. cbn [sessions notify_all]. rewrite lookup_fmap.
    destruct (sessions st !! j) as [z|]; [|done].
    intros [= <-]. apply wake_not_Waiting.
  - intros cfg evs i x bgr buf Hx HW Hstop Hpc Henc.
    pose proof (SessionInv_reachable cfg evs) as HS.
    pose proof (run_config evs (boot cfg)) as Hcfg.
    set (st := run' evs (boot cfg)) in *. simpl in Hcfg.
    pose proof (inv_waiting _ HS i x Hx HW) as Heq.
    assert (serving x = true) as Hs.
    { destruct (serving x) eqn:Hs; [done|]. by destruct (inv_closed _ HS i x Hx Hs). }
    change (run' [LoopCycle (CaptureReturns (Some bgr)); Run i true] st)
      with (step' (step' st (LoopCycle (CaptureReturns (Some bgr)))) (Run i true)).
    assert (step' st (LoopCycle (CaptureReturns (Some bgr)))
            = {| service := publish buf (service st); loop_pc := LoopTop;
                 sessions := notify_all true (sessions st) |}) as ->.
    { cbn [step cycle cycle_raises]. rewrite Hpc, Hcfg, Henc. done. }
    cbn [step sessions service notify_all].
    rewrite lookup_alter_eq, lookup_fmap, Hx. simpl. f_equal.
    destruct x as [[l p] w sv]. simpl in HW, Hs, Heq. subst p sv l.
    unfold run_session, wake, resume, critical_section, critical_section_reads. simpl.
    rewrite Hstop. destruct (Z.eqb_spec (_frame_seq (service st)) (_frame_seq (service st) + 1));
      [lia|done].
Qed.

(** *** The loop alone *)

Lemma loop_stopped captures s : _stop s = true -> loop' captures s = s.
Proof. intros H. destruct captures; simpl; [done | by rewrite H]. Qed.

Lemma cycle_keeps c s :
  config (cycle' c s).1 = config s /\ _stop (cycle' c s).1 = _stop s.
Proof.
  destruct (cycle_cases imencode IMWRITE_JPEG_QUALITY c s) as [-> | [buf ->]]; done.
Qed.

Lemma loop_keeps captures s :
  config (loop' captures s) = config s /\ _stop (loop' captures s) = _stop s.
Proof.
  revert s. induction captures as [|c captures IH]; intros s; simpl; [done|].
  destruct (_stop s) eqn:Hs; [done|].
  destruct (cycle_raises' (config s) c); [done|].
  destruct (IH (cycle' c s).1) as [-> ->]. rewrite <- Hs. apply cycle_keeps.
Qed.

Lemma loop_app a b' s :
  Forall (fun c => cycle_raises' (config s) c = false) a ->
  loop' (a ++ b') s = loop' b' (loop' a s).
Proof.
  revert s. induction a as [|c a IH]; intros s Hno; simpl; [done|].
  apply Forall_cons in Hno as [Hc Hno].
  destruct (_stop s) eqn:Hs; [by rewrite loop_stopped|].
  rewrite Hc. apply IH. by rewrite (proj1 (cycle_keeps c s)).
Qed.

(** X11: the loop run alone ends at the first cycle in which the
    encoder raises, whatever is captured afterwards; it never touches
    the configuration or the stop flag, and does nothing on a stopped
    service; over captures on none of which the encoder raises it
    composes, on a service not stopped the counter grows by exactly the
    number of cycles that did not fail, and after a cycle that encodes
    successfully the current frame is that cycle's buffer, whatever
    came before. *)
Theorem loop_counts_successful_cycles :
  (forall before c after s,
      cycle_raises' (config s) c = true ->
      loop' (before ++ c :: after) s = loop' before s)
  /\ (forall captures s,
      config (loop' captures s) = config s /\ _stop (loop' captures s) = _stop s)
  /\ (forall captures s, _stop s = true -> loop' captures s = s)
  /\ (forall a b' s,
      Forall (fun c => cycle_raises' (config s) c = false) a ->
      loop' (a ++ b') s = loop' b' (loop' a s))
  /\ (forall captures s,
      _stop s = false ->
      Forall (fun c => cycle_raises' (config s) c = false) captures ->
      _frame_seq (loop' captures s)
      = _frame_seq s
        + Z.of_nat (length (List.filter (fun c => negb (cycle_fails' (config s) c))
                                        captures)))
  /\ (forall captures bgr buf s,
      _stop s = false ->
      Forall (fun c => cycle_raises' (config s) c = false) captures ->
      imencode ".jpg" bgr (encode_params IMWRITE_JPEG_QUALITY (config s))
      = Some (true, buf) ->
      _latest_original (loop' (captures ++ [CaptureReturns (Some bgr)]) s) = Some buf).
Proof.
  split; [exact (loop_raise imencode IMWRITE_JPEG_QUALITY)|].
  split; [exact loop_keeps|].
  split; [exact loop_stopped|].
  split; [exact loop_app|].
  split.
  - induction captures as [|c captures IH]; intros s Hs Hno; [simpl; lia|].
    apply Forall_cons in Hno as [Hc Hno].
    cbn [_loop List.filter]. rewrite Hs, Hc.
    destruct (cycle_keeps c s) as [Hcfg Hst].
    rewrite IH; [|congruence | by rewrite Hcfg]. rewrite Hcfg.
    destruct (cycle_fails' (config s) c) eqn:Hf; cbn [negb length].
    + by rewrite (cycle_failure imencode IMWRITE_JPEG_QUALITY c s Hf).
    + destruct (cycle_success imencode IMWRITE_JPEG_QUALITY c s Hf Hc)
        as (bgr & buf & _ & _ & ->). simpl. lia.
  - intros captures bgr buf s Hs Hno Henc. rewrite loop_app by done.
    destruct (loop_keeps captures s) as [Hc Hst].
    simpl. rewrite Hst, Hs, Hc, Henc. done.
Qed.

(** *** The bytes of a chunk *)

(** X12: a chunk is its frame plus a fixed wrapping of 39 bytes, 37 in
    front and 2 behind, and different frames give different chunks. *)
Theorem chunk_framing :
  (forall frame, length (chunk_of frame) = (39 + length frame)%nat)
  /\ (forall frame,
      take 37 (chunk_of frame)
      = b "--frame" ++ CRLF ++ b "Content-Type: image/jpeg" ++ CRLF ++ CRLF
      /\ drop 37 (chunk_of frame) = frame ++ CRLF)
  /\ (forall frame1 frame2, chunk_of frame1 = chunk_of frame2 -> frame1 = frame2).
Proof.
  split; [|split].
  - intros frame. unfold chunk_of. rewrite !length_app. simpl. lia.
  - intros frame. split; reflexivity.
  - intros frame1 frame2 H. unfold chunk_of in H.
    apply app_inv_head in H. rewrite !app_assoc in H.
    apply app_inv_tail in H. by apply app_inv_head in H.
Qed.

(** *** A stop during the pass through lines 76-82 *)

(** X13: the two tests of [_stop] in lines 76 and 78 can differ only
    when [stop] runs between them, and the pass then gives what it
    would have given with [stop] run just before the pass or just after
    it: the stopped signal if a frame was due, the wait if nothing was
    new. *)
Theorem stop_between_the_tests s stop76 stop78 last :
  (stop76 = true -> stop78 = true) ->
  critical_section_reads s stop76 stop78 last
  = critical_section
      {| config := config s; _stop := stop76;
         _latest_original := _latest_original s; _frame_seq := _frame_seq s |} last
  \/ critical_section_reads s stop76 stop78 last
     = critical_section
         {| config := config s; _stop := stop78;
            _latest_original := _latest_original s; _frame_seq := _frame_seq s |} last.
Proof.
  intros Hmono. unfold critical_section, critical_section_reads. simpl.
  destruct (last =? _frame_seq s); simpl.
  - destruct stop76; simpl; [|by left]. rewrite Hmono by done. by left.
  - by right.
Qed.

(** *** Only the stream path streams *)

(** X24: a stream is started for the path [/stream] with the service
    in place and for nothing else; a request for any other path, or on
    a connection already open, leaves the running system as it is. *)
Theorem stream_only_on_stream_path :
  (forall svc path g,
      body (do_GET svc path) = Stream g ->
      path = "/stream" /\ is_Some svc /\ g = frame_generator)
  /\ (forall st i path, path <> "/stream" -> step' st (GET i path) = st)
  /\ (forall st i path x, sessions st !! i = Some x -> step' st (GET i path) = st).
Proof.
  assert (forall svc path g,
             body (do_GET svc path) = Stream g ->
             path = "/stream" /\ is_Some svc /\ g = frame_generator) as Hstream.
  { intros svc path g. unfold do_GET.
    destruct (String.eqb_spec path "/"); [done|].
    destruct (String.eqb_spec path "/stream"); [|done].
    destruct svc; simpl; [|done]. intros [= <-]. eauto. }
  split; [exact Hstream|]. split.
  - intros st i path Hne. cbn [step].
    destruct (sessions st !! i); [done|].
    destruct (body _) eqn:Hb; try done.
    apply Hstream in Hb as [-> _]. done.
  - intros st i path x Hx. cbn [step]. by rewrite Hx.
Qed.

(** *** Catching up *)

Lemma run_replicate_Run n i ok st x :
  sessions st !! i = Some x ->
  sessions (run' (replicate n (Run i ok)) st) !! i
  = Some (Nat.iter n (run_session (service st) ok) x)
  /\ service (run' (replicate n (Run i ok)) st) = service st.
Proof.
  revert st x. induction n as [|n IH]; intros st x Hx; [done|].
  cbn [replicate]. change (run' (Run i ok :: replicate n (Run i ok)) st)
    with (run' (replicate n (Run i ok)) (step' st (Run i ok))).
  destruct (step_Run_session st i ok x Hx) as [Hx1 Hs1].
  destruct (IH _ _ Hx1) as [-> ->]. rewrite Hs1. split; [|done].
  f_equal. apply Nat.iter_swap.
Qed.

(** X25: a connection that is behind catches up with the latest frame
    by itself: at any moment of a run with a frame published and [stop]
    not set, a connection whose handler is still serving and whose
    [last_seq] is below the current [_frame_seq] is, after at most
    three steps of its handler with nothing else happening, handed the
    current frame: its chunk is appended and [last_seq] is the current
    [_frame_seq]. *)
Theorem behind_connection_catches_up cfg evs i x :
  sessions (run' evs (boot cfg)) !! i = Some x ->
  serving x = true ->
  _stop (service (run' evs (boot cfg))) = false ->
  1 <= _frame_seq (service (run' evs (boot cfg))) ->
  last_seq (gen x) < _frame_seq (service (run' evs (boot cfg))) ->
  exists frame n,
    (1 <= n <= 3)%nat
    /\ _latest_original (service (run' evs (boot cfg))) = Some frame
    /\ sessions (run' (replicate n (Run i true)) (run' evs (boot cfg))) !! i
       = Some {| gen := {| last_seq := _frame_seq (service (run' evs (boot cfg)));
                           pc := Suspended |};
                 wfile := wfile x ++ [chunk_of frame];
                 serving := true |}.
Proof.
  intros Hx Hs Hstop Hge Hlt.
  pose proof (Inv_reachable imencode IMWRITE_JPEG_QUALITY cfg evs) as HI.
  pose proof (SessionInv_reachable cfg evs) as HS.
  set (st := run' evs (boot cfg)) in *.
  destruct (_latest_original (service st)) as [frame|] eqn:Hl.
  2:{ apply (inv_absent _ HI) in Hl. lia. }
  assert (forall l, l < _frame_seq (service st) ->
            critical_section (service st) l
            = NewFrame (Some frame) (_frame_seq (service st))) as Hcs.
  { intros l Hl'. unfold critical_section, critical_section_reads.
    rewrite Hstop, Hl. destruct (Z.eqb_spec l (_frame_seq (service st))); [lia|done]. }
  exists frame.
  destruct x as [[l p] w sv]. simpl in Hs, Hlt. subst sv.
  destruct p.
  - exists 2%nat. split; [lia|]. split; [done|].
    destruct (run_replicate_Run 2 i true st _ Hx) as [-> _]. f_equal. simpl.
    rewrite (run_session_AtTop _ _ _ _ Hstop).
    by rewrite (run_session_NewFrame _ _ _ _ _ (Hcs l Hlt)).
  - exists 1%nat. split; [lia|]. split; [done|].
    destruct (run_replicate_Run 1 i true st _ Hx) as [-> _]. f_equal. simpl.
    by rewrite (run_session_NewFrame _ _ _ _ _ (Hcs l Hlt)).
  - pose proof (inv_waiting _ HS i _ Hx eq_refl) as Heq. simpl in Heq. lia.
  - exists 3%nat. split; [lia|]. split; [done|].
    destruct (run_replicate_Run 3 i true st _ Hx) as [-> _]. f_equal. simpl.
    assert (run_session (service st) true
              {| gen := {| last_seq := l; pc := Suspended |}; wfile := w; serving := true |}
            = {| gen := {| last_seq := l; pc := AtTop |}; wfile := w; serving := true |})
      as -> by done.
    rewrite (run_session_AtTop _ _ _ _ Hstop).
    by rewrite (run_session_NewFrame _ _ _ _ _ (Hcs l Hlt)).
  - by destruct (inv_serving _ HS i _ Hx eq_refl).
Qed.

(** *** The first frame of a connection *)

(** C5 (as the code has it): the first frame a connection is handed is
    the frame that is current when its wait is served, never the
    absent state: whenever a connection still at its initial
    [last_seq] of -1 is handed a frame, it is the current frame with
    the current sequence number, which is at least 1; at any moment of
    a run in which a publish has been made and [stop] has not, such a
    connection is handed the current frame within three steps of its
    handler, as its first chunk; and a connection made at such a moment
    and served at once, with no publish in between, is handed the frame
    that was current when it was made. *)
Theorem first_wait_yields_frame_current_when_served cfg evs i :
  (forall e frame v,
      delivered (run' evs (boot cfg)) e = Some (i, frame, v) ->
      last_of (run' evs (boot cfg)) i = -1 ->
      1 <= v
      /\ v = _frame_seq (service (run' evs (boot cfg)))
      /\ _latest_original (service (run' evs (boot cfg))) = Some frame)
  /\ (forall x,
      sessions (run' evs (boot cfg)) !! i = Some x ->
      last_seq (gen x) = -1 ->
      serving x = true ->
      _stop (service (run' evs (boot cfg))) = false ->
      (0 < publishes' evs (boot cfg))%nat ->
      exists frame n,
        (1 <= n <= 3)%nat
        /\ _latest_original (service (run' evs (boot cfg))) = Some frame
        /\ 1 <= _frame_seq (service (run' evs (boot cfg)))
        /\ sessions (run' (replicate n (Run i true)) (run' evs (boot cfg))) !! i
           = Some {| gen := {| last_seq := _frame_seq (service (run' evs (boot cfg)));
                               pc := Suspended |};
                     wfile := [chunk_of frame];
                     serving := true |})
  /\ ((0 < publishes' evs (boot cfg))%nat ->
      _stop (service (run' evs (boot cfg))) = false ->
      sessions (run' evs (boot cfg)) !! i = None ->
      exists frame,
        _latest_original (service (run' evs (boot cfg))) = Some frame
        /\ 1 <= _frame_seq (service (run' evs (boot cfg)))
        /\ critical_section (service (run' evs (boot cfg))) (last_seq frame_generator)
           = NewFrame (Some frame) (_frame_seq (service (run' evs (boot cfg))))
        /\ sessions (run' [GET i "/stream"; Run i true; Run i true]
                          (run' evs (boot cfg))) !! i
           = Some {| gen := {| last_seq := _frame_seq (service (run' evs (boot cfg)));
                               pc := Suspended |};
                     wfile := [chunk_of frame];
                     serving := true |}).
Proof.
  pose proof (Inv_reachable imencode IMWRITE_JPEG_QUALITY cfg evs) as HI.
  pose proof (SessionInv_reachable cfg evs) as HS.
  pose proof (run_frame_seq_publishes imencode IMWRITE_JPEG_QUALITY evs (boot cfg)) as Hseq.
  set (st := run' evs (boot cfg)) in *. simpl in Hseq.
  pose proof (inv_seq_nonneg _ HI) as Hnn.
  assert (forall frame, _latest_original (service st) = Some frame ->
                        1 <= _frame_seq (service st)) as Hsome.
  { intros frame Hl. destruct (Z.eq_dec (_frame_seq (service st)) 0) as [H0|H0]; [|lia].
    apply (inv_absent _ HI) in H0. congruence. }
  assert (_stop (service st) = false -> 1 <= _frame_seq (service st) ->
          exists frame, _latest_original (service st) = Some frame
            /\ critical_section (service st) (-1)
               = NewFrame (Some frame) (_frame_seq (service st))) as Hcs.
  { intros Hstop Hge. destruct (_latest_original (service st)) as [frame|] eqn:Hl.
    2:{ apply (inv_absent _ HI) in Hl. lia. }
    exists frame. split; [done|]. unfold critical_section, critical_section_reads.
    rewrite Hstop, Hl. destruct (Z.eqb_spec (-1) (_frame_seq (service st))); [lia|done]. }
  split; [|split].
  - intros e frame v Hd _.
    apply delivered_inv in Hd as (_ & _ & _ & _ & _ & _ & _ & _ & -> & Hl).
    split; [by apply (Hsome frame)|done].
  - intros x Hx Hlast Hs Hstop Hpub.
    assert (1 <= _frame_seq (service st)) as Hge by lia.
    destruct (Hcs Hstop Hge) as (frame & Hl & Hnew).
    assert (wfile x = []) as Hw.
    { pose proof (inv_count _ HS i x Hx) as Hc. rewrite Hlast in Hc.
      destruct (wfile x); [done | simpl in Hc; lia]. }
    exists frame.
    destruct x as [[l p] w sv]. simpl in Hlast, Hs, Hw. subst l sv w.
    destruct p.
    + exists 2%nat. split; [lia|]. split; [done|]. split; [done|].
      destruct (run_replicate_Run 2 i true st _ Hx) as [-> _]. f_equal. simpl.
      rewrite (run_session_AtTop _ _ _ _ Hstop).
      by rewrite (run_session_NewFrame _ _ _ _ _ Hnew).
    + exists 1%nat. split; [lia|]. split; [done|]. split; [done|].
      destruct (run_replicate_Run 1 i true st _ Hx) as [-> _]. f_equal. simpl.
      by rewrite (run_session_NewFrame _ _ _ _ _ Hnew).
    + pose proof (inv_waiting _ HS i _ Hx eq_refl) as Heq. simpl in Heq. lia.
    + exists 3%nat. split; [lia|]. split; [done|]. split; [done|].
      destruct (run_replicate_Run 3 i true st _ Hx) as [-> _]. f_equal. simpl.
      assert (run_session (service st) true
                {| gen := {| last_seq := -1; pc := Suspended |}; wfile := [];
                   serving := true |}
              = {| gen := {| last_seq := -1; pc := AtTop |}; wfile := [];
                   serving := true |}) as -> by done.
      rewrite (run_session_AtTop _ _ _ _ Hstop).
      by rewrite (run_session_NewFrame _ _ _ _ _ Hnew).
    + by destruct (inv_serving _ HS i _ Hx eq_refl).
  - intros Hpub Hstop Hfresh.
    assert (1 <= _frame_seq (service st)) as Hge by lia.
    destruct (Hcs Hstop Hge) as (frame & Hl & Hnew).
    exists frame. repeat split; try done.
    rewrite !(run_cons imencode IMWRITE_JPEG_QUALITY),
      (step_GET_stream imencode IMWRITE_JPEG_QUALITY st i Hfresh),
      !(step_Run imencode IMWRITE_JPEG_QUALITY).
    cbn [run fold_left sessions service].
    rewrite !lookup_alter_eq, lookup_insert_eq. cbn [fmap option_fmap option_map].
    unfold frame_generator. rewrite (run_session_AtTop _ _ _ _ Hstop).
    rewrite (run_session_NewFrame _ _ _ _ _ Hnew). done.
Qed.

End Coverage.

(** * Properties of the recorder *)

Section RecorderProperties.

Variable HOSTNAME DATE : string.
Variable join : string -> string -> string.
Variable usage_percent_ge : Z -> Z -> Z -> bool.

Local Abbreviation CMD_ARGS' := (CCTVRecorder.CMD_ARGS HOSTNAME DATE).
Local Abbreviation candidates' := (CCTVRecorder.candidates join).
Local Abbreviation cleanup_disk' := (CCTVRecorder.cleanup_disk join usage_percent_ge).
Local Abbreviation start_camera' := (CCTVRecorder.start_camera HOSTNAME DATE).
Local Abbreviation check_window' := (CCTVRecorder.check_window HOSTNAME DATE).
Local Abbreviation pass' := (CCTVRecorder.pass HOSTNAME DATE join usage_percent_ge).
Local Abbreviation recorder_run :=
  (CCTVRecorder.run HOSTNAME DATE join usage_percent_ge).

Implicit Types (w : CCTVRecorder.World) (r : CCTVRecorder.Recorder).

(** *** [endswith] *)

Lemma substring_all (t : string) : String.substring 0 (String.length t) t = t.
Proof. induction t as [|a t IH]; simpl; [done | by rewrite IH]. Qed.

Lemma substring_append_suffix (p t : string) :
  String.substring (String.length p) (String.length t) (p +:+ t) = t.
Proof. induction p as [|a p IH]; simpl; [apply substring_all | exact IH]. Qed.

Lemma string_length_append (p t : string) :
  String.length (p +:+ t) = (String.length p + String.length t)%nat.
Proof. induction p as [|a p IH]; simpl; [done | by rewrite IH]. Qed.

Lemma substring_split (s : string) (k : nat) :
  (k <= String.length s)%nat ->
  String.substring 0 k s +:+ String.substring k (String.length s - k) s = s.
Proof.
  revert k. induction s as [|a s IH]; intros k Hk.
  - simpl in Hk. assert (k = 0%nat) as -> by lia. done.
  - destruct k as [|k]; simpl.
    + by rewrite substring_all.
    + change (String a (String.substring 0 k s
                          +:+ String.substring k (String.length s - k) s)
              = String a s).
      f_equal. apply IH. simpl in Hk. lia.
Qed.

(** X14: [endswith] holds exactly of the strings that are some string
    followed by the suffix. *)
Theorem endswith_iff_suffix (s suffix : string) :
  CCTVRecorder.endswith s suffix = true <-> exists front, s = front +:+ suffix.
Proof.
  unfold CCTVRecorder.endswith. split.
  - remember (String.length suffix) as m eqn:Hm.
    destruct (Nat.leb_spec m (String.length s)) as [Hle|]; [|done].
    intros Heq%String.eqb_eq.
    exists (String.substring 0 (String.length s - m) s).
    pose proof (substring_split s (String.length s - m) ltac:(lia)) as Hsplit.
    replace (String.length s - (String.length s - m))%nat with m in Hsplit by lia.
    by rewrite Heq in Hsplit.
  - intros [front ->]. rewrite string_length_append.
    destruct (Nat.leb_spec (String.length suffix)
                (String.length front + String.length suffix)) as [_|]; [|lia].
    replace (String.length front + String.length suffix - String.length suffix)%nat
      with (String.length front) by lia.
    rewrite substring_append_suffix. apply String.eqb_refl.
Qed.

(** *** [cleanup_disk] *)

(** [min] returns the first item among those with the least key: the
    items before it have a greater key, the items after it none
    smaller. *)
Lemma min_by_key_first_least (first : string * Q) (rest : list (string * Q)) :
  exists before after,
    first :: rest = before ++ CCTVRecorder.min_by_key first rest :: after
    /\ Forall (fun item => ((CCTVRecorder.min_by_key first rest).2 < item.2)%Q) before
    /\ Forall (fun item => ((CCTVRecorder.min_by_key first rest).2 <= item.2)%Q) after.
Proof.
  unfold CCTVRecorder.min_by_key.
  revert first. induction rest as [|x rest IH]; intros first.
  - exists [], []. simpl. repeat split; constructor.
  - cbn [fold_left]. destruct (Qle_bool first.2 x.2) eqn:Hle; cbn [negb].
    + (* [x] does not replace the running best *)
      apply Qle_bool_iff in Hle.
      destruct (IH first) as (before & after & Heq & Hb & Ha).
      remember (fold_left _ rest first) as m eqn:Hm. clear Hm.
      destruct before as [|b0 before].
      * injection Heq as Hfirst Hrest. subst m after.
        exists [], (x :: rest). split; [done|]. split; [constructor|].
        by constructor.
      * injection Heq as Hb0 Hrest. subst b0 rest.
        exists (first :: x :: before), after.
        split; [done|]. split; [|exact Ha].
        inversion Hb as [|? ? Hfirst Hbefore]; subst.
        constructor; [exact Hfirst|].
        constructor; [|exact Hbefore].
        eapply Qlt_le_trans; [exact Hfirst | exact Hle].
    + (* [x] has a smaller key and becomes the running best *)
      assert ((x.2 < first.2)%Q) as Hlt.
      { apply Qnot_le_lt. intros H%Qle_bool_iff. congruence. }
      destruct (IH x) as (before & after & Heq & Hb & Ha).
      remember (fold_left _ rest x) as m eqn:Hm. clear Hm.
      exists (first :: before), after.
      rewrite Heq. split; [done|]. split; [|exact Ha].
      constructor; [|exact Hb].
      eapply Qle_lt_trans; [|exact Hlt].
      destruct before as [|b0 before].
      * injection Heq as Hx _. subst m. apply Qle_refl.
      * injection Heq as Hb0 _. subst b0.
        inversion Hb; subst. by apply Qlt_le_weak.
Qed.

Lemma with_mtimes_Some w files keyed :
  CCTVRecorder.with_mtimes w files = Some keyed ->
  map fst keyed = files
  /\ Forall (fun item => CCTVRecorder.getmtime w item.1 = Some item.2) keyed.
Proof.
  revert keyed. induction files as [|f files IH]; intros keyed; simpl.
  - intros [= <-]. split; [done | constructor].
  - destruct (CCTVRecorder.getmtime w f) as [m|] eqn:Hm; [|done].
    destruct (CCTVRecorder.with_mtimes w files) as [keyed'|]; [|done].
    intros [= <-]. destruct (IH keyed' eq_refl) as [Hmap Hall].
    simpl. split; [by rewrite Hmap | by constructor].
Qed.

Lemma with_mtimes_is_Some w files :
  Forall (fun f => is_Some (CCTVRecorder.getmtime w f)) files ->
  is_Some (CCTVRecorder.with_mtimes w files).
Proof.
  induction 1 as [|f files [m Hm] _ [keyed Hk]]; simpl; [eauto|].
  rewrite Hm, Hk. eauto.
Qed.

Lemma elem_of_candidates names path :
  path ∈ candidates' names <->
  exists f, f ∈ names /\ CCTVRecorder.endswith f ".h264" = true
            /\ path = join CCTVRecorder.BUFFER_DIR f.
Proof.
  unfold CCTVRecorder.candidates. rewrite list_elem_of_fmap. split.
  - intros (f & -> & Hf). apply list_elem_of_In, filter_In in Hf as [Hin He].
    exists f. by rewrite list_elem_of_In.
  - intros (f & Hin & He & ->). exists f. split; [done|].
    apply list_elem_of_In, filter_In. by rewrite <- list_elem_of_In.
Qed.

(** What a removal tells: the disk was at the threshold, and the path
    removed is the first of the least modification time among the
    candidates. *)
Lemma cleanup_disk_Removed w path :
  cleanup_disk' w = CCTVRecorder.Removed path ->
  exists total used free names mtime before after,
    CCTVRecorder.disk_usage w = Some (total, used, free)
    /\ total <> 0
    /\ usage_percent_ge used total CCTVRecorder.DISK_THRESHOLD_PERCENT = true
    /\ CCTVRecorder.listdir w = Some names
    /\ candidates' names = before ++ path :: after
    /\ CCTVRecorder.getmtime w path = Some mtime
    /\ CCTVRecorder.remove_ok w path = true
    /\ Forall (fun p => exists m, CCTVRecorder.getmtime w p = Some m /\ (mtime < m)%Q) before
    /\ Forall (fun p => exists m, CCTVRecorder.getmtime w p = Some m /\ (mtime <= m)%Q) after.
Proof.
  unfold CCTVRecorder.cleanup_disk.
  destruct (CCTVRecorder.disk_usage w) as [[[total used] free]|]; [|done].
  destruct (Z.eqb_spec total 0) as [|Hne]; [done|].
  destruct (usage_percent_ge _ _ _) eqn:Hge; [|done].
  destruct (CCTVRecorder.listdir w) as [names|]; [|done].
  destruct (candidates' names) as [|file files] eqn:Hc; [done|].
  destruct (CCTVRecorder.getmtime w file) as [mtime0|] eqn:Hm0; [|done].
  destruct (CCTVRecorder.with_mtimes w files) as [keyed|] eqn:Hk; [|done].
  destruct (with_mtimes_Some w files keyed Hk) as [Hmap Hall].
  destruct (min_by_key_first_least (file, mtime0) keyed)
    as (before & after & Heq & Hb & Ha).
  set (oldest := CCTVRecorder.min_by_key (file, mtime0) keyed) in *.
  destruct (CCTVRecorder.remove_ok w oldest.1) eqn:Hrm; [|done].
  intros [= <-].
  assert (Forall (fun item => CCTVRecorder.getmtime w item.1 = Some item.2)
                 ((file, mtime0) :: keyed)) as Hall' by by constructor.
  rewrite Heq in Hall'. apply Forall_app in Hall' as [Hkb Hka].
  apply Forall_cons in Hka as [Hko Hkafter].
  exists total, used, free, names, oldest.2, (map fst before), (map fst after).
  repeat split; try done.
  - rewrite Hc. apply (f_equal (map fst)) in Heq.
    rewrite map_app in Heq. simpl in Heq. by rewrite Hmap in Heq.
  - apply Forall_fmap. eapply Forall_impl; [apply Forall_and; split; [exact Hkb | exact Hb]|].
    intros item [H1 H2]. simpl. eauto.
  - apply Forall_fmap. eapply Forall_impl; [apply Forall_and; split; [exact Hkafter | exact Ha]|].
    intros item [H1 H2]. simpl. eauto.
Qed.

(** X15: [cleanup_disk] removes a file only when the disk usage
    compares at or above [DISK_THRESHOLD_PERCENT], and then the file is
    one listed in [BUFFER_DIR] whose name ends in [.h264], none of the
    listed [.h264] files being older than it; files with other names
    are never removed. *)
Theorem cleanup_removes_an_oldest_segment w path :
  cleanup_disk' w = CCTVRecorder.Removed path ->
  exists total used free names f mtime,
    CCTVRecorder.disk_usage w = Some (total, used, free)
    /\ total <> 0
    /\ usage_percent_ge used total CCTVRecorder.DISK_THRESHOLD_PERCENT = true
    /\ CCTVRecorder.listdir w = Some names
    /\ f ∈ names /\ CCTVRecorder.endswith f ".h264" = true
    /\ path = join CCTVRecorder.BUFFER_DIR f
    /\ CCTVRecorder.getmtime w path = Some mtime
    /\ forall f', f' ∈ names -> CCTVRecorder.endswith f' ".h264" = true ->
         exists mtime', CCTVRecorder.getmtime w (join CCTVRecorder.BUFFER_DIR f')
                        = Some mtime' /\ (mtime <= mtime')%Q.
Proof.
  intros (total & used & free & names & mtime & before & after & Hdu & Hne & Hge
          & Hls & Hc & Hm & _ & Hb & Ha)%cleanup_disk_Removed.
  assert (path ∈ candidates' names) as Hin.
  { rewrite Hc. apply elem_of_app. right. apply list_elem_of_here. }
  apply elem_of_candidates in Hin as (f & Hf & He & ->).
  exists total, used, free, names, f, mtime. repeat split; try done.
  intros f' Hf' He'.
  assert (join CCTVRecorder.BUFFER_DIR f' ∈ candidates' names) as Hin'.
  { apply elem_of_candidates. eauto. }
  rewrite Hc in Hin'. apply elem_of_app in Hin' as [Hin'|Hin'].
  - rewrite Forall_forall in Hb. destruct (Hb _ Hin') as (m & Hm' & Hlt).
    exists m. split; [done | by apply Qlt_le_weak].
  - apply elem_of_cons in Hin' as [->|Hin'].
    + exists mtime. split; [done | apply Qle_refl].
    + rewrite Forall_forall in Ha. exact (Ha _ Hin').
Qed.

(** X16: of several files of the least modification time, the one
    listed first is removed: every candidate listed before the removed
    path is strictly newer than it. *)
Theorem cleanup_removes_first_listed_oldest w path :
  CCTVRecorder.cleanup_disk join usage_percent_ge w = CCTVRecorder.Removed path ->
  exists names mtime before after,
    CCTVRecorder.listdir w = Some names
    /\ CCTVRecorder.candidates join names = before ++ path :: after
    /\ CCTVRecorder.getmtime w path = Some mtime
    /\ Forall (fun p => exists m, CCTVRecorder.getmtime w p = Some m /\ (mtime < m)%Q)
              before
    /\ Forall (fun p => exists m, CCTVRecorder.getmtime w p = Some m /\ (mtime <= m)%Q)
              after.
Proof.
  intros (total & used & free & names & mtime & before & after & _ & _ & _
          & Hls & Hc & Hm & _ & Hb & Ha)%cleanup_disk_Removed.
  exists names, mtime, before, after. done.
Qed.

(** X17: when the disk usage compares at or above the threshold and
    none of the calls raises, [cleanup_disk] removes a file if the
    listing holds a name ending in [.h264], and with no such name
    removes nothing, however full the disk. *)
Theorem cleanup_removes_when_full w total used free names :
  CCTVRecorder.disk_usage w = Some (total, used, free) ->
  total <> 0 ->
  usage_percent_ge used total CCTVRecorder.DISK_THRESHOLD_PERCENT = true ->
  CCTVRecorder.listdir w = Some names ->
  (forall path, path ∈ candidates' names ->
     is_Some (CCTVRecorder.getmtime w path) /\ CCTVRecorder.remove_ok w path = true) ->
  ((exists f, f ∈ names /\ CCTVRecorder.endswith f ".h264" = true) ->
   exists path, cleanup_disk' w = CCTVRecorder.Removed path)
  /\ ((forall f, f ∈ names -> CCTVRecorder.endswith f ".h264" = false) ->
      cleanup_disk' w = CCTVRecorder.NoFiles).
Proof.
  intros Hdu Hne Hge Hls Hok. unfold CCTVRecorder.cleanup_disk.
  rewrite Hdu, Hge, Hls. destruct (Z.eqb_spec total 0) as [|_]; [done|].
  split.
  - intros (f & Hf & He).
    assert (join CCTVRecorder.BUFFER_DIR f ∈ candidates' names) as Hin.
    { apply elem_of_candidates. eauto. }
    destruct (candidates' names) as [|file files] eqn:Hc.
    { by apply elem_of_nil in Hin. }
    destruct (Hok file ltac:(left)) as [[mtime ->] _].
    destruct (with_mtimes_is_Some w files) as [keyed Hk].
    { apply Forall_forall. intros p Hp. apply Hok. by right. }
    rewrite Hk.
    destruct (with_mtimes_Some w files keyed Hk) as [Hmap _].
    destruct (min_by_key_first_least (file, mtime) keyed)
      as (before & after & Heq & _).
    set (oldest := CCTVRecorder.min_by_key (file, mtime) keyed) in *.
    assert (oldest.1 ∈ file :: files) as Hold.
    { apply (f_equal (map fst)) in Heq. rewrite map_app in Heq. simpl in Heq.
      rewrite Hmap in Heq. rewrite Heq. apply elem_of_app. right. left. }
    destruct (Hok _ Hold) as [_ ->]. eauto.
  - intros Hnone.
    assert (candidates' names = []) as ->; [|done].
    apply elem_of_nil_inv. intros path (f & Hf & He & _)%elem_of_candidates.
    rewrite (Hnone f Hf) in He. done.
Qed.

(** *** One pass of the loop *)

(** What [cleanup_disk] adds to the effects of a pass. *)
Lemma cleanup_effects w :
  match cleanup_disk' w with
  | CCTVRecorder.Removed path => [CCTVRecorder.Remove path]
  | _ => []
  end = []
  \/ exists path, cleanup_disk' w = CCTVRecorder.Removed path
       /\ match cleanup_disk' w with
          | CCTVRecorder.Removed path => [CCTVRecorder.Remove path]
          | _ => []
          end = [CCTVRecorder.Remove path].
Proof. destruct (cleanup_disk' w) eqn:H; eauto. Qed.

(** X18: a pass follows the hours of the day.  Outside [START_HOUR] to
    [END_HOUR] it leaves no process: one that was held is terminated
    (and killed if it does not exit in time), and nothing is started or
    removed.  Inside, hours 6 and 17 included, with no process held it
    starts one with [CMD_ARGS] and holds it; with a process that still
    runs it starts and stops nothing.  Inside, at most one file is
    removed. *)
Theorem pass_follows_the_window w r :
  ((CCTVRecorder.hour w < CCTVRecorder.START_HOUR
    \/ CCTVRecorder.END_HOUR < CCTVRecorder.hour w) ->
   pass' w r
   = ({| CCTVRecorder.process := None; CCTVRecorder.running := CCTVRecorder.running r |},
      match CCTVRecorder.process r with
      | Some pid => CCTVRecorder.Terminate pid
                    :: (if CCTVRecorder.wait_times_out w then [CCTVRecorder.Kill pid]
                        else [])
      | None => []
      end))
  /\ (6 <= CCTVRecorder.hour w <= 17 ->
      CCTVRecorder.process r = None ->
      exists removal,
        pass' w r
        = ({| CCTVRecorder.process := Some (CCTVRecorder.new_pid w);
              CCTVRecorder.running := CCTVRecorder.running r |},
           CCTVRecorder.Spawn (CCTVRecorder.new_pid w) CMD_ARGS' :: removal)
        /\ (removal = [] \/ exists path, removal = [CCTVRecorder.Remove path]))
  /\ (6 <= CCTVRecorder.hour w <= 17 ->
      is_Some (CCTVRecorder.process r) ->
      CCTVRecorder.poll w = None ->
      exists removal,
        pass' w r = (r, removal)
        /\ (removal = [] \/ exists path, removal = [CCTVRecorder.Remove path])).
Proof.
  unfold CCTVRecorder.pass, CCTVRecorder.check_window, CCTVRecorder.start_camera,
    CCTVRecorder.stop_camera, CCTVRecorder.START_HOUR, CCTVRecorder.END_HOUR.
  repeat split.
  - intros Hout.
    assert ((6 <=? CCTVRecorder.hour w) && (CCTVRecorder.hour w <=? 17) = false) as ->.
    { apply andb_false_iff. lia. }
    destruct r as [[pid|] run]; simpl; [by rewrite app_nil_r | done].
  - intros Hin Hnone.
    assert ((6 <=? CCTVRecorder.hour w) && (CCTVRecorder.hour w <=? 17) = true) as ->.
    { apply andb_true_iff. lia. }
    rewrite Hnone. simpl.
    destruct (cleanup_effects w) as [-> | (path & _ & ->)]; eauto.
  - intros Hin [pid Hpid] Hpoll.
    assert ((6 <=? CCTVRecorder.hour w) && (CCTVRecorder.hour w <=? 17) = true) as ->.
    { apply andb_true_iff. lia. }
    rewrite Hpid, Hpoll, Hpid. simpl.
    destruct (cleanup_effects w) as [-> | (path & _ & ->)]; eauto.
Qed.

(** X19: a recording process found dead inside the hours is not
    restarted by the pass that finds it: that pass only forgets it,
    starting and removing nothing; the next pass inside the hours
    starts the new process. *)
Theorem dead_process_restarts_on_next_pass w1 w2 r pid code :
  6 <= CCTVRecorder.hour w1 <= 17 ->
  6 <= CCTVRecorder.hour w2 <= 17 ->
  CCTVRecorder.process r = Some pid ->
  CCTVRecorder.poll w1 = Some code ->
  CCTVRecorder.running r = true ->
  CCTVRecorder.pass HOSTNAME DATE join usage_percent_ge w1 r
  = ({| CCTVRecorder.process := None; CCTVRecorder.running := true |}, [])
  /\ exists removal,
      CCTVRecorder.run HOSTNAME DATE join usage_percent_ge
        [CCTVRecorder.Pass w1; CCTVRecorder.Pass w2] r
      = ({| CCTVRecorder.process := Some (CCTVRecorder.new_pid w2);
            CCTVRecorder.running := true |},
         CCTVRecorder.Spawn (CCTVRecorder.new_pid w2) CMD_ARGS' :: removal)
      /\ (removal = [] \/ exists path, removal = [CCTVRecorder.Remove path]).
Proof.
  intros H1 H2 Hpid Hpoll Hrun.
  assert (pass' w1 r
          = ({| CCTVRecorder.process := None; CCTVRecorder.running := true |}, []))
    as Hpass1.
  { unfold CCTVRecorder.pass, CCTVRecorder.check_window,
      CCTVRecorder.START_HOUR, CCTVRecorder.END_HOUR.
    assert ((6 <=? CCTVRecorder.hour w1) && (CCTVRecorder.hour w1 <=? 17) = true) as ->.
    { apply andb_true_iff. lia. }
    rewrite Hpid, Hpoll, Hrun. done. }
  split; [exact Hpass1|].
  assert (exists removal,
            pass' w2 {| CCTVRecorder.process := None; CCTVRecorder.running := true |}
            = ({| CCTVRecorder.process := Some (CCTVRecorder.new_pid w2);
                  CCTVRecorder.running := true |},
               CCTVRecorder.Spawn (CCTVRecorder.new_pid w2) CMD_ARGS' :: removal)
            /\ (removal = [] \/ exists path, removal = [CCTVRecorder.Remove path]))
    as (removal & Hpass2 & Hrem).
  { unfold CCTVRecorder.pass, CCTVRecorder.check_window, CCTVRecorder.start_camera,
      CCTVRecorder.START_HOUR, CCTVRecorder.END_HOUR.
    assert ((6 <=? CCTVRecorder.hour w2) && (CCTVRecorder.hour w2 <=? 17) = true) as ->.
    { apply andb_true_iff. lia. }
    simpl. destruct (cleanup_effects w2) as [-> | (path & _ & ->)]; eauto. }
  exists removal. split; [|exact Hrem].
  cbn [CCTVRecorder.run]. rewrite Hrun, Hpass1. cbn [CCTVRecorder.running].
  rewrite Hpass2. simpl. by rewrite app_nil_r.
Qed.

(** *** Stopping *)

(** X20: [stop_camera] sends [terminate] to the process held, sends
    [kill] after it only if the wait of five seconds timed out, and
    holds no process afterwards; called again it does nothing.
    [shutdown] does the same and clears [running]. *)
Theorem stop_camera_terminates_once w w' r :
  CCTVRecorder.process (CCTVRecorder.stop_camera w r).1 = None
  /\ CCTVRecorder.running (CCTVRecorder.stop_camera w r).1 = CCTVRecorder.running r
  /\ (CCTVRecorder.stop_camera w r).2
     = match CCTVRecorder.process r with
       | Some pid => CCTVRecorder.Terminate pid
                     :: (if CCTVRecorder.wait_times_out w then [CCTVRecorder.Kill pid]
                         else [])
       | None => []
       end
  /\ CCTVRecorder.stop_camera w' (CCTVRecorder.stop_camera w r).1
     = ((CCTVRecorder.stop_camera w r).1, [])
  /\ CCTVRecorder.shutdown w r
     = ({| CCTVRecorder.process := None; CCTVRecorder.running := false |},
        (CCTVRecorder.stop_camera w r).2)
  /\ CCTVRecorder.shutdown w' (CCTVRecorder.shutdown w r).1
     = ((CCTVRecorder.shutdown w r).1, []).
Proof.
  unfold CCTVRecorder.shutdown, CCTVRecorder.stop_camera.
  destruct r as [[pid|] run]; simpl; repeat split; done.
Qed.

(** *** The loop and the signals *)

Lemma run_not_running inputs r :
  CCTVRecorder.running r = false -> recorder_run inputs r = (r, []).
Proof. intros H. destruct inputs; simpl; [done | by rewrite H]. Qed.

Lemma shutdown_result w r :
  CCTVRecorder.shutdown w r
  = ({| CCTVRecorder.process := None; CCTVRecorder.running := false |},
     (CCTVRecorder.stop_camera w r).2).
Proof.
  unfold CCTVRecorder.shutdown, CCTVRecorder.stop_camera.
  by destruct r as [[pid|] run].
Qed.

Lemma pass_running w r :
  CCTVRecorder.running (pass' w r).1 = CCTVRecorder.running r.
Proof.
  unfold CCTVRecorder.pass, CCTVRecorder.check_window, CCTVRecorder.start_camera,
    CCTVRecorder.stop_camera.
  destruct (_ && _), r as [[pid|] run]; simpl; try done.
  by destruct (CCTVRecorder.poll w).
Qed.

(** X21: a signal that arrives during the sleep ends the loop at its
    next test: the process held is terminated, [run] returns with no
    process and [running] cleared, and whatever would have come after
    is not done; a recorder that is not running does nothing at
    all. *)
Theorem signal_during_sleep_ends_run w rest r :
  (CCTVRecorder.running r = true ->
   CCTVRecorder.run HOSTNAME DATE join usage_percent_ge (CCTVRecorder.Signal w :: rest) r
   = ({| CCTVRecorder.process := None; CCTVRecorder.running := false |},
      match CCTVRecorder.process r with
      | Some pid => CCTVRecorder.Terminate pid
                    :: (if CCTVRecorder.wait_times_out w then [CCTVRecorder.Kill pid]
                        else [])
      | None => []
      end))
  /\ (CCTVRecorder.running r = false -> recorder_run rest r = (r, [])).
Proof.
  split; [|apply run_not_running].
  intros Hrun. cbn [CCTVRecorder.run]. rewrite Hrun, shutdown_result.
  rewrite run_not_running by done. rewrite app_nil_r.
  unfold CCTVRecorder.stop_camera. by destruct r as [[pid|] run].
Qed.

(** X22: the body of the loop does not look at [running].  When the
    signal arrives right after the test of line 108, inside the hours,
    the pass that follows starts a new recording process after
    [shutdown] has stopped the old one, and [run] returns with
    [running] cleared and that new process still held, neither
    terminated nor killed; outside the hours [run] returns with no
    process. *)
Theorem signal_after_loop_test_restarts_camera w0 w rest r :
  CCTVRecorder.running r = true ->
  (6 <= CCTVRecorder.hour w <= 17 ->
   exists removal,
     recorder_run (CCTVRecorder.SignalThenPass w0 w :: rest) r
     = ({| CCTVRecorder.process := Some (CCTVRecorder.new_pid w);
           CCTVRecorder.running := false |},
        (CCTVRecorder.stop_camera w0 r).2
        ++ CCTVRecorder.Spawn (CCTVRecorder.new_pid w) CMD_ARGS' :: removal)
     /\ (removal = [] \/ exists path, removal = [CCTVRecorder.Remove path]))
  /\ ((CCTVRecorder.hour w < 6 \/ 17 < CCTVRecorder.hour w) ->
      recorder_run (CCTVRecorder.SignalThenPass w0 w :: rest) r
      = ({| CCTVRecorder.process := None; CCTVRecorder.running := false |},
         (CCTVRecorder.stop_camera w0 r).2)).
Proof.
  intros Hrun. cbn [CCTVRecorder.run]. rewrite Hrun, shutdown_result.
  unfold CCTVRecorder.pass, CCTVRecorder.check_window, CCTVRecorder.start_camera,
    CCTVRecorder.START_HOUR, CCTVRecorder.END_HOUR.
  cbn [CCTVRecorder.process CCTVRecorder.running].
  split.
  - intros Hin.
    assert ((6 <=? CCTVRecorder.hour w) && (CCTVRecorder.hour w <=? 17) = true) as ->.
    { apply andb_true_iff. lia. }
    cbn [CCTVRecorder.process]. rewrite run_not_running by done.
    rewrite app_nil_r.
    destruct (cleanup_effects w) as [-> | (path & _ & ->)]; eauto.
  - intros Hout.
    assert ((6 <=? CCTVRecorder.hour w) && (CCTVRecorder.hour w <=? 17) = false) as ->.
    { apply andb_false_iff. lia. }
    cbn [CCTVRecorder.process]. rewrite run_not_running by done.
    by rewrite !app_nil_r.
Qed.

Lemma pass_removals w r :
  (length (List.filter (fun e => match e with CCTVRecorder.Remove _ => true | _ => false end)
                       (pass' w r).2) <= 1)%nat.
Proof.
  unfold CCTVRecorder.pass, CCTVRecorder.check_window, CCTVRecorder.start_camera,
    CCTVRecorder.stop_camera.
  destruct (cleanup_effects w) as [Hc | (path & _ & Hc)];
    destruct (_ && _), r as [[pid|] run]; simpl;
    try destruct (CCTVRecorder.poll w); try destruct (CCTVRecorder.wait_times_out w);
    simpl; rewrite ?Hc; simpl; lia.
Qed.

Lemma shutdown_removals w r :
  List.filter (fun e => match e with CCTVRecorder.Remove _ => true | _ => false end)
              (CCTVRecorder.shutdown w r).2 = [].
Proof.
  unfold CCTVRecorder.shutdown, CCTVRecorder.stop_camera.
  destruct r as [[pid|] run]; simpl; [|done].
  by destruct (CCTVRecorder.wait_times_out w).
Qed.

(** X23: however full the disk, [run] removes at most one file for
    each pass of its loop. *)
Theorem run_removes_at_most_one_file_per_pass inputs r :
  (length (List.filter (fun e => match e with CCTVRecorder.Remove _ => true | _ => false end)
                       (CCTVRecorder.run HOSTNAME DATE join usage_percent_ge inputs r).2)
   <= length inputs)%nat.
Proof.
  revert r. induction inputs as [|input inputs IH]; intros r; [simpl; lia|].
  cbn [CCTVRecorder.run]. destruct (CCTVRecorder.running r); [|simpl; lia].
  destruct input as [w | w | w0 w].
  - pose proof (pass_removals w r) as Hp.
    destruct (pass' w r) as [r1 effects1].
    specialize (IH r1). destruct (recorder_run inputs r1) as [r2 effects2].
    cbn [snd] in *. rewrite List.filter_app, length_app. cbn [length]. lia.
  - pose proof (shutdown_removals w r) as Hs.
    destruct (CCTVRecorder.shutdown w r) as [r1 effects1].
    specialize (IH r1). destruct (recorder_run inputs r1) as [r2 effects2].
    cbn [snd] in *. rewrite List.filter_app, length_app, Hs. cbn [length]. lia.
  - pose proof (shutdown_removals w0 r) as Hs.
    destruct (CCTVRecorder.shutdown w0 r) as [r0 effects0].
    pose proof (pass_removals w r0) as Hp.
    destruct (pass' w r0) as [r1 effects1].
    specialize (IH r1). destruct (recorder_run inputs r1) as [r2 effects2].
    cbn [snd] in *. rewrite !List.filter_app, !length_app, Hs. cbn [length]. lia.
Qed.

End RecorderProperties.

(** * The further properties on sample runs *)

Local Abbreviation sample_publishes :=
  (publishes sample_imencode sample_IMWRITE_JPEG_QUALITY).
Local Abbreviation sample_loop := (_loop sample_imencode sample_IMWRITE_JPEG_QUALITY).

(** The waiter of [waiting_run] has one publish behind it and a frame
    in the slot. *)
Lemma frame_absent_only_before_first_publish_witness :
  (_latest_original (service (sample_run waiting_run (boot load_config))) = None
   <-> sample_publishes waiting_run (boot load_config) = 0%nat)
  /\ config (service (sample_run waiting_run (boot load_config))) = load_config.
Proof.
  apply (frame_absent_only_before_first_publish
           sample_imencode sample_IMWRITE_JPEG_QUALITY load_config waiting_run).
Defined.

Lemma waiter_has_seen_current_frame_witness :
  sessions (sample_run waiting_run (boot load_config)) !! 0%nat
  = Some {| gen := {| last_seq := 1; pc := Waiting |};
            wfile := [chunk_of (b "PA")]; serving := true |}
  /\ 1 = _frame_seq (service (sample_run waiting_run (boot load_config)))
  /\ 1 <= 1
  /\ true = true
  /\ exists frame,
      _latest_original (service (sample_run waiting_run (boot load_config))) = Some frame.
Proof.
  split; [vm_compute; reflexivity|].
  apply (waiter_has_seen_current_frame sample_imencode sample_IMWRITE_JPEG_QUALITY
           load_config waiting_run 0%nat
           {| gen := {| last_seq := 1; pc := Waiting |};
              wfile := [chunk_of (b "PA")]; serving := true |}).
  - vm_compute. reflexivity.
  - reflexivity.
Defined.

(** The slow consumer: three publishes, two chunks. *)
Lemma chunks_written_bounded_by_publishes_witness :
  sessions (sample_run (slow_consumer_run ++ [Run 0%nat true]) (boot load_config)) !! 0%nat
  = Some {| gen := {| last_seq := 3; pc := Suspended |};
            wfile := [chunk_of (b "PA"); chunk_of (b "PC")]; serving := true |}
  /\ Z.of_nat 2 <= Z.max 0 3
  /\ (2 <= sample_publishes (slow_consumer_run ++ [Run 0%nat true]) (boot load_config))%nat.
Proof.
  split; [vm_compute; reflexivity|].
  apply (chunks_written_bounded_by_publishes sample_imencode sample_IMWRITE_JPEG_QUALITY
           load_config (slow_consumer_run ++ [Run 0%nat true]) 0%nat
           {| gen := {| last_seq := 3; pc := Suspended |};
              wfile := [chunk_of (b "PA"); chunk_of (b "PC")]; serving := true |}).
  vm_compute. reflexivity.
Defined.

Lemma written_chunks_append_only_witness :
  sessions (sample_run waiting_run (boot load_config)) !! 0%nat
  = Some {| gen := {| last_seq := 1; pc := Waiting |};
            wfile := [chunk_of (b "PA")]; serving := true |}
  /\ exists y,
      sessions (sample_run [LoopCheck; LoopCycle (CaptureReturns (Some frame_B));
                            Run 0%nat true]
                  (sample_run waiting_run (boot load_config))) !! 0%nat = Some y
      /\ [chunk_of (b "PA")] `prefix_of` wfile y.
Proof.
  split; [vm_compute; reflexivity|].
  apply (written_chunks_append_only sample_imencode sample_IMWRITE_JPEG_QUALITY
           [LoopCheck; LoopCycle (CaptureReturns (Some frame_B)); Run 0%nat true]
           (sample_run waiting_run (boot load_config)) 0%nat
           {| gen := {| last_seq := 1; pc := Waiting |};
              wfile := [chunk_of (b "PA")]; serving := true |}).
  vm_compute. reflexivity.
Defined.

(** Connection 0 steps, its write failing; connection 1 and the
    service do not notice. *)
Lemma connection_steps_are_local_witness :
  (service (sample_run [Run 0%nat false; Timeout 0%nat]
                       (sample_run two_consumers_run (boot load_config)))
   = service (sample_run two_consumers_run (boot load_config))
   /\ loop_pc (sample_run [Run 0%nat false; Timeout 0%nat]
                          (sample_run two_consumers_run (boot load_config)))
      = loop_pc (sample_run two_consumers_run (boot load_config))
   /\ sessions (sample_run [Run 0%nat false; Timeout 0%nat]
                           (sample_run two_consumers_run (boot load_config))) !! 1%nat
      = sessions (sample_run two_consumers_run (boot load_config)) !! 1%nat)
  /\ sessions (sample_step (sample_run two_consumers_run (boot load_config))
                           (Run 0%nat false)) !! 0%nat
     = Some {| gen := {| last_seq := 1; pc := Suspended |}; wfile := []; serving := false |}.
Proof.
  pose proof (connection_steps_are_local sample_imencode sample_IMWRITE_JPEG_QUALITY)
    as [Hlocal Hfail].
  split.
  - destruct (Hlocal [Run 0%nat false; Timeout 0%nat]
                (sample_run two_consumers_run (boot load_config)) 0%nat eq_refl)
      as (Hs & Hl & Ho).
    split; [exact Hs|]. split; [exact Hl|]. apply Ho. lia.
  - apply (Hfail (sample_run two_consumers_run (boot load_config)) 0%nat
             {| gen := {| last_seq := -1; pc := InCondition |}; wfile := [];
                serving := true |} (b "PA") 1).
    + vm_compute. reflexivity.
    + vm_compute. reflexivity.
Defined.

(** A connection whose write failed stays as it is through a publish,
    a step and a timeout. *)
Lemma closed_connection_is_final_witness :
  sessions (sample_run (two_consumers_run ++ [Run 0%nat false]) (boot load_config)) !! 0%nat
  = Some {| gen := {| last_seq := 1; pc := Suspended |}; wfile := []; serving := false |}
  /\ sessions (sample_run [LoopCheck; LoopCycle (CaptureReturns (Some frame_B));
                           Run 0%nat true; Timeout 0%nat]
                 (sample_run (two_consumers_run ++ [Run 0%nat false]) (boot load_config)))
       !! 0%nat
     = Some {| gen := {| last_seq := 1; pc := Suspended |}; wfile := []; serving := false |}.
Proof.
  split; [vm_compute; reflexivity|].
  apply (closed_connection_is_final sample_imencode sample_IMWRITE_JPEG_QUALITY
           load_config (two_consumers_run ++ [Run 0%nat false])).
  - vm_compute. reflexivity.
  - reflexivity.
Defined.

(** Stopped at the top of the loop, however many cycles are offered:
    no publish. *)
Lemma at_most_one_publish_after_stop_witness :
  loop_pc (boot load_config) <> LoopInCycle
  /\ sample_publishes (loop_events [CaptureReturns (Some frame_A);
                                    CaptureReturns (Some frame_B)])
       (sample_step (boot load_config) Stop) = 0%nat.
Proof.
  assert (loop_pc (boot load_config) <> LoopInCycle) as H by discriminate.
  split; [exact H|].
  apply (proj1 (proj2 (at_most_one_publish_after_stop
                         sample_imencode sample_IMWRITE_JPEG_QUALITY
                         (boot load_config)
                         (loop_events [CaptureReturns (Some frame_A);
                                       CaptureReturns (Some frame_B)]))) H).
Defined.

(** A client connected before any frame: two steps bring it back to
    line 74. *)
Lemma no_wait_before_first_frame_witness :
  sample_publishes [GET 0%nat "/stream"] (boot load_config) = 0%nat
  /\ sessions (sample_run [GET 0%nat "/stream"] (boot load_config)) !! 0%nat
     = Some {| gen := frame_generator; wfile := []; serving := true |}
  /\ sessions (sample_run [Run 0%nat true; Run 0%nat true]
                 (sample_run [GET 0%nat "/stream"] (boot load_config))) !! 0%nat
     = Some {| gen := frame_generator; wfile := []; serving := true |}.
Proof.
  split; [reflexivity|]. split; [vm_compute; reflexivity|].
  apply (proj2 (no_wait_before_first_frame sample_imencode sample_IMWRITE_JPEG_QUALITY
                  load_config [GET 0%nat "/stream"] 0%nat
                  {| gen := frame_generator; wfile := []; serving := true |}
                  eq_refl ltac:(vm_compute; reflexivity))
               eq_refl eq_refl eq_refl true true).
Defined.

Lemma timeout_without_news_waits_again_witness :
  sessions (sample_run waiting_run (boot load_config)) !! 0%nat
  = Some {| gen := {| last_seq := 1; pc := Waiting |};
            wfile := [chunk_of (b "PA")]; serving := true |}
  /\ sessions (sample_run [Timeout 0%nat; Run 0%nat true]
                 (sample_run waiting_run (boot load_config))) !! 0%nat
     = Some {| gen := {| last_seq := 1; pc := Waiting |};
               wfile := [chunk_of (b "PA")]; serving := true |}.
Proof.
  split; [vm_compute; reflexivity|].
  apply (timeout_without_news_waits_again sample_imencode sample_IMWRITE_JPEG_QUALITY
           load_config waiting_run 0%nat).
  - vm_compute. reflexivity.
  - reflexivity.
  - reflexivity.
Defined.

(** The waiter of [waiting_run] is woken by the publish of frame B and
    handed it. *)
Lemma publish_wakes_and_delivers_witness :
  sessions (sample_run [LoopCycle (CaptureReturns (Some frame_B)); Run 0%nat true]
              (sample_run (waiting_run ++ [LoopCheck]) (boot load_config))) !! 0%nat
  = Some {| gen := {| last_seq :=
                        _frame_seq (service (sample_run (waiting_run ++ [LoopCheck])
                                                        (boot load_config))) + 1;
                      pc := Suspended |};
            wfile := [chunk_of (b "PA")] ++ [chunk_of (b "PB")];
            serving := true |}
  /\ forall j y,
      sessions (sample_step (sample_run (waiting_run ++ [LoopCheck]) (boot load_config))
                            (LoopCycle (CaptureReturns (Some frame_B)))) !! j = Some y ->
      pc (gen y) <> Waiting.
Proof.
  pose proof (publish_wakes_and_delivers sample_imencode sample_IMWRITE_JPEG_QUALITY)
    as [Hwake Hdeliver].
  split.
  - apply (Hdeliver load_config (waiting_run ++ [LoopCheck]) 0%nat
             {| gen := {| last_seq := 1; pc := Waiting |};
                wfile := [chunk_of (b "PA")]; serving := true |} frame_B (b "PB")).
    + vm_compute. reflexivity.
    + reflexivity.
    + reflexivity.
    + reflexivity.
    + reflexivity.
  - intros j y. apply Hwake. reflexivity.
Defined.

(** Three failures and two good captures: the counter is 2 and the
    frame is the last one encoded; with a frame on which the encoder
    raises between the good ones, only the first is published. *)
Lemma loop_counts_successful_cycles_witness :
  sample_loop ([CaptureReturns (Some frame_A)]
               ++ CaptureReturns (Some frame_bad) :: [CaptureReturns (Some frame_B)])
              (init load_config)
  = sample_loop [CaptureReturns (Some frame_A)] (init load_config)
  /\ sample_loop (three_failures ++ [CaptureReturns (Some frame_A)])
                 (stop (init load_config))
     = stop (init load_config)
  /\ _frame_seq (sample_loop (CaptureReturns (Some frame_A) :: three_failures
                              ++ [CaptureReturns (Some frame_B)]) (init load_config))
     = 0 + Z.of_nat 2
  /\ _latest_original (sample_loop ((CaptureReturns (Some frame_A) :: three_failures)
                                    ++ [CaptureReturns (Some frame_B)]) (init load_config))
     = Some (b "PB").
Proof.
  pose proof (loop_counts_successful_cycles sample_imencode sample_IMWRITE_JPEG_QUALITY)
    as (Hraise & _ & Hstopped & _ & Hcount & Hlatest).
  split; [apply Hraise; reflexivity|].
  split; [apply Hstopped; reflexivity|].
  split.
  - apply (Hcount (CaptureReturns (Some frame_A) :: three_failures
                   ++ [CaptureReturns (Some frame_B)]) (init load_config));
      [reflexivity | repeat constructor].
  - apply (Hlatest (CaptureReturns (Some frame_A) :: three_failures) frame_B (b "PB")
             (init load_config)); [reflexivity | repeat constructor | reflexivity].
Defined.

Lemma chunk_framing_witness :
  chunk_of frame_A = chunk_of (b "A") /\ frame_A = b "A".
Proof.
  split; [reflexivity|].
  apply (proj2 (proj2 chunk_framing) frame_A (b "A")). reflexivity.
Defined.

(** A frame is due, line 76 reads the flag clear, [stop] runs, line 78
    reads it set: the stopped signal, as if [stop] had run first. *)
Lemma stop_between_the_tests_witness :
  critical_section_reads (publish frame_A (init load_config)) false true (-1)
  = StoppedSignal
  /\ (critical_section_reads (publish frame_A (init load_config)) false true (-1)
      = critical_section
          {| config := load_config; _stop := false;
             _latest_original := Some frame_A; _frame_seq := 0 + 1 |} (-1)
      \/ critical_section_reads (publish frame_A (init load_config)) false true (-1)
         = critical_section
             {| config := load_config; _stop := true;
                _latest_original := Some frame_A; _frame_seq := 0 + 1 |} (-1)).
Proof.
  split; [reflexivity|].
  apply (stop_between_the_tests (publish frame_A (init load_config)) false true (-1)).
  intros H. discriminate H.
Defined.

(** ** The recorder *)

Local Abbreviation sample_cleanup_disk :=
  (CCTVRecorder.cleanup_disk sample_join sample_usage_percent_ge).
Local Abbreviation sample_pass :=
  (CCTVRecorder.pass "cam" "20260101_000000" sample_join sample_usage_percent_ge).
Local Abbreviation sample_recorder_run :=
  (CCTVRecorder.run "cam" "20260101_000000" sample_join sample_usage_percent_ge).

Lemma endswith_iff_suffix_witness :
  CCTVRecorder.endswith "cam_0001.h264" ".h264" = true
  /\ (exists front, "cam_0001.h264" = front +:+ ".h264")
  /\ CCTVRecorder.endswith "notes.txt" ".h264" = false.
Proof.
  split; [reflexivity|]. split; [|reflexivity].
  apply (proj1 (endswith_iff_suffix "cam_0001.h264" ".h264")). reflexivity.
Defined.

(** On the sample disk the second segment goes: it is the first listed
    of the two oldest. *)
Lemma cleanup_removes_an_oldest_segment_witness :
  sample_cleanup_disk (sample_world 12 None)
  = CCTVRecorder.Removed "/home/pi/cctv_buffer/cam_0002.h264"
  /\ exists total used free names f mtime,
      CCTVRecorder.disk_usage (sample_world 12 None) = Some (total, used, free)
      /\ total <> 0
      /\ sample_usage_percent_ge used total CCTVRecorder.DISK_THRESHOLD_PERCENT = true
      /\ CCTVRecorder.listdir (sample_world 12 None) = Some names
      /\ f ∈ names /\ CCTVRecorder.endswith f ".h264" = true
      /\ "/home/pi/cctv_buffer/cam_0002.h264" = sample_join CCTVRecorder.BUFFER_DIR f
      /\ CCTVRecorder.getmtime (sample_world 12 None) "/home/pi/cctv_buffer/cam_0002.h264"
         = Some mtime
      /\ forall f', f' ∈ names -> CCTVRecorder.endswith f' ".h264" = true ->
           exists mtime',
             CCTVRecorder.getmtime (sample_world 12 None)
               (sample_join CCTVRecorder.BUFFER_DIR f') = Some mtime'
             /\ (mtime <= mtime')%Q.
Proof.
  split; [vm_compute; reflexivity|].
  apply (cleanup_removes_an_oldest_segment sample_join sample_usage_percent_ge
           (sample_world 12 None)).
  vm_compute. reflexivity.
Defined.

Lemma cleanup_removes_first_listed_oldest_witness :
  exists names mtime before after,
    CCTVRecorder.listdir (sample_world 12 None) = Some names
    /\ CCTVRecorder.candidates sample_join names
       = before ++ "/home/pi/cctv_buffer/cam_0002.h264" :: after
    /\ CCTVRecorder.getmtime (sample_world 12 None) "/home/pi/cctv_buffer/cam_0002.h264"
       = Some mtime
    /\ Forall (fun p => exists m, CCTVRecorder.getmtime (sample_world 12 None) p = Some m
                                  /\ (mtime < m)%Q) before
    /\ Forall (fun p => exists m, CCTVRecorder.getmtime (sample_world 12 None) p = Some m
                                  /\ (mtime <= m)%Q) after.
Proof.
  apply (cleanup_removes_first_listed_oldest sample_join sample_usage_percent_ge
           (sample_world 12 None)).
  vm_compute. reflexivity.
Defined.

Lemma cleanup_removes_when_full_witness :
  (exists path, sample_cleanup_disk (sample_world 12 None) = CCTVRecorder.Removed path)
  /\ sample_cleanup_disk sample_world_no_segments = CCTVRecorder.NoFiles.
Proof.
  split.
  - apply (proj1 (cleanup_removes_when_full sample_join sample_usage_percent_ge
                    (sample_world 12 None) 1000 950 50
                    ["cam_0001.h264"; "notes.txt"; "cam_0002.h264"; "cam_0003.h264"]
                    eq_refl ltac:(lia) eq_refl eq_refl
                    ltac:(intros path Hp; split; [|reflexivity];
                          vm_compute in Hp; repeat (apply elem_of_cons in Hp as [->|Hp]);
                          [eexists; reflexivity ..| by apply elem_of_nil in Hp]))).
    exists "cam_0001.h264". split; [left | reflexivity].
  - apply (proj2 (cleanup_removes_when_full sample_join sample_usage_percent_ge
                    sample_world_no_segments 1000 950 50 ["notes.txt"]
                    eq_refl ltac:(lia) eq_refl eq_refl
                    ltac:(intros path Hp; by apply elem_of_nil in Hp))).
    intros f Hf. apply elem_of_cons in Hf as [->|Hf]; [reflexivity|].
    by apply elem_of_nil in Hf.
Defined.

(** At 20 h the process held is terminated and, not exiting in time,
    killed; at 17 h a recorder without process starts one and, the
    disk being full, removes the oldest segment. *)
Lemma pass_follows_the_window_witness :
  sample_pass (sample_world 20 None) (recording 3)
  = ({| CCTVRecorder.process := None; CCTVRecorder.running := true |},
     [CCTVRecorder.Terminate 3; CCTVRecorder.Kill 3])
  /\ (exists removal,
        sample_pass (sample_world 17 None) CCTVRecorder.init
        = ({| CCTVRecorder.process := Some 7%nat; CCTVRecorder.running := true |},
           CCTVRecorder.Spawn 7 (CCTVRecorder.CMD_ARGS "cam" "20260101_000000") :: removal)
        /\ (removal = [] \/ exists path, removal = [CCTVRecorder.Remove path]))
  /\ (exists removal,
        sample_pass (sample_world 6 None) (recording 3) = (recording 3, removal)
        /\ (removal = [] \/ exists path, removal = [CCTVRecorder.Remove path])).
Proof.
  pose proof (pass_follows_the_window "cam" "20260101_000000" sample_join
                sample_usage_percent_ge) as H.
  split.
  - apply (proj1 (H (sample_world 20 None) (recording 3))). right. reflexivity.
  - split.
    + apply (proj1 (proj2 (H (sample_world 17 None) CCTVRecorder.init)));
        [simpl; lia | reflexivity].
    + apply (proj2 (proj2 (H (sample_world 6 None) (recording 3))));
        [simpl; lia | by eexists | reflexivity].
Defined.

Lemma dead_process_restarts_on_next_pass_witness :
  sample_pass (sample_world 9 (Some 1)) (recording 3)
  = ({| CCTVRecorder.process := None; CCTVRecorder.running := true |}, [])
  /\ exists removal,
      sample_recorder_run [CCTVRecorder.Pass (sample_world 9 (Some 1));
                           CCTVRecorder.Pass (sample_world 9 None)] (recording 3)
      = ({| CCTVRecorder.process := Some 7%nat; CCTVRecorder.running := true |},
         CCTVRecorder.Spawn 7 (CCTVRecorder.CMD_ARGS "cam" "20260101_000000") :: removal)
      /\ (removal = [] \/ exists path, removal = [CCTVRecorder.Remove path]).
Proof.
  apply (dead_process_restarts_on_next_pass "cam" "20260101_000000" sample_join
           sample_usage_percent_ge (sample_world 9 (Some 1)) (sample_world 9 None)
           (recording 3) 3%nat 1).
  - simpl. lia.
  - simpl. lia.
  - reflexivity.
  - reflexivity.
  - reflexivity.
Defined.

Lemma signal_during_sleep_ends_run_witness :
  sample_recorder_run [CCTVRecorder.Signal (sample_world 9 None);
                       CCTVRecorder.Pass (sample_world 9 None)] (recording 3)
  = ({| CCTVRecorder.process := None; CCTVRecorder.running := false |},
     [CCTVRecorder.Terminate 3; CCTVRecorder.Kill 3]).
Proof.
  apply (proj1 (signal_during_sleep_ends_run "cam" "20260101_000000" sample_join
                  sample_usage_percent_ge (sample_world 9 None)
                  [CCTVRecorder.Pass (sample_world 9 None)] (recording 3))).
  reflexivity.
Defined.

(** A signal right after the loop test at 9 h: process 3 is stopped,
    process 7 is started and is still held when [run] returns. *)
Lemma signal_after_loop_test_restarts_camera_witness :
  exists removal,
    sample_recorder_run [CCTVRecorder.SignalThenPass (sample_world 9 None)
                                                     (sample_world 9 None);
                         CCTVRecorder.Pass (sample_world 9 None)] (recording 3)
    = ({| CCTVRecorder.process := Some 7%nat; CCTVRecorder.running := false |},
       (CCTVRecorder.stop_camera (sample_world 9 None) (recording 3)).2
       ++ CCTVRecorder.Spawn 7 (CCTVRecorder.CMD_ARGS "cam" "20260101_000000") :: removal)
    /\ (removal = [] \/ exists path, removal = [CCTVRecorder.Remove path]).
Proof.
  apply (proj1 (signal_after_loop_test_restarts_camera "cam" "20260101_000000" sample_join
                  sample_usage_percent_ge (sample_world 9 None) (sample_world 9 None)
                  [CCTVRecorder.Pass (sample_world 9 None)] (recording 3) eq_refl)).
  simpl. lia.
Defined.

Example sample_run_effects :
  (sample_recorder_run [CCTVRecorder.Pass (sample_world 9 None);
                        CCTVRecorder.Pass (sample_world 20 None)] CCTVRecorder.init).2
  = [CCTVRecorder.Spawn 7 (CCTVRecorder.CMD_ARGS "cam" "20260101_000000");
     CCTVRecorder.Remove "/home/pi/cctv_buffer/cam_0002.h264";
     CCTVRecorder.Terminate 7; CCTVRecorder.Kill 7].
Proof. vm_compute. reflexivity. Qed.

(** The slow consumer, suspended at frame A while C is current, is
    handed C within three steps. *)
Lemma behind_connection_catches_up_witness :
  exists frame n,
    (1 <= n <= 3)%nat
    /\ _latest_original
         (service (sample_run [LoopCheck; LoopCycle (CaptureReturns (Some frame_A));
                               GET 0%nat "/stream"; Run 0%nat true; Run 0%nat true;
                               LoopCheck; LoopCycle (CaptureReturns (Some frame_C))]
                              (boot load_config))) = Some frame
    /\ sessions (sample_run (replicate n (Run 0%nat true))
                   (sample_run [LoopCheck; LoopCycle (CaptureReturns (Some frame_A));
                                GET 0%nat "/stream"; Run 0%nat true; Run 0%nat true;
                                LoopCheck; LoopCycle (CaptureReturns (Some frame_C))]
                               (boot load_config))) !! 0%nat
       = Some {| gen := {| last_seq :=
                             _frame_seq
                               (service (sample_run
                                  [LoopCheck; LoopCycle (CaptureReturns (Some frame_A));
                                   GET 0%nat "/stream"; Run 0%nat true; Run 0%nat true;
                                   LoopCheck; LoopCycle (CaptureReturns (Some frame_C))]
                                  (boot load_config)));
                           pc := Suspended |};
                 wfile := [chunk_of (b "PA")] ++ [chunk_of frame];
                 serving := true |}.
Proof.
  apply (behind_connection_catches_up sample_imencode sample_IMWRITE_JPEG_QUALITY
           load_config
           [LoopCheck; LoopCycle (CaptureReturns (Some frame_A));
            GET 0%nat "/stream"; Run 0%nat true; Run 0%nat true;
            LoopCheck; LoopCycle (CaptureReturns (Some frame_C))]
           0%nat
           {| gen := {| last_seq := 1; pc := Suspended |};
              wfile := [chunk_of (b "PA")]; serving := true |}).
  - vm_compute. reflexivity.
  - reflexivity.
  - reflexivity.
  - vm_compute. discriminate.
  - vm_compute. reflexivity.
Defined.

Lemma stream_only_on_stream_path_witness :
  body (do_GET (Some (init load_config)) "/stream") = Stream frame_generator
  /\ ("/stream" = "/stream" /\ is_Some (Some (init load_config))
      /\ frame_generator = frame_generator)
  /\ sample_step (boot load_config) (GET 0%nat "/") = boot load_config
  /\ sample_step (sample_run two_consumers_run (boot load_config)) (GET 0%nat "/stream")
     = sample_run two_consumers_run (boot load_config).
Proof.
  pose proof (stream_only_on_stream_path sample_imencode sample_IMWRITE_JPEG_QUALITY)
    as (Hstream & Hother & Hopen).
  split; [reflexivity|].
  split; [apply (Hstream (Some (init load_config)) "/stream" frame_generator); reflexivity|].
  split; [apply Hother; discriminate|].
  apply (Hopen (sample_run two_consumers_run (boot load_config)) 0%nat "/stream"
           {| gen := {| last_seq := -1; pc := InCondition |}; wfile := [];
              serving := true |}).
  vm_compute. reflexivity.
Defined.

(** ** The encoder raising, and a publish before the first wait *)

(** The camera returns a frame on which the encoder raises, then a
    good frame: the loop thread has ended, [stop] was never called, and
    the good frame is not published. *)
Lemma encoder_exception_ends_loop_witness :
  cycle_raises sample_imencode sample_IMWRITE_JPEG_QUALITY load_config
               (CaptureReturns (Some frame_bad)) = true
  /\ sample_step {| service := init load_config; loop_pc := LoopInCycle; sessions := ∅ |}
                 (LoopCycle (CaptureReturns (Some frame_bad)))
     = {| service := init load_config; loop_pc := LoopExited; sessions := ∅ |}
  /\ (sample_publishes (loop_events [CaptureReturns (Some frame_A)])
        {| service := init load_config; loop_pc := LoopExited; sessions := ∅ |} = 0%nat
      /\ _frame_seq (service (sample_run (loop_events [CaptureReturns (Some frame_A)])
                     {| service := init load_config; loop_pc := LoopExited;
                        sessions := ∅ |}))
         = _frame_seq (init load_config))
  /\ sample_loop ([] ++ CaptureReturns (Some frame_bad) :: [CaptureReturns (Some frame_A)])
                 (init load_config)
     = sample_loop [] (init load_config)
  /\ service (sample_run (loop_events (three_failures ++ CaptureReturns (Some frame_bad)
                                       :: [CaptureReturns (Some frame_A)]))
                         (boot load_config))
     = service (boot load_config).
Proof.
  pose proof (encoder_exception_ends_loop sample_imencode sample_IMWRITE_JPEG_QUALITY)
    as (Hstep & Hnever & Hloop & Hrun).
  split; [reflexivity|].
  split.
  { apply (Hstep (CaptureReturns (Some frame_bad))
             {| service := init load_config; loop_pc := LoopInCycle; sessions := ∅ |});
      reflexivity. }
  split.
  { apply (Hnever {| service := init load_config; loop_pc := LoopExited; sessions := ∅ |}
             (loop_events [CaptureReturns (Some frame_A)])). reflexivity. }
  split.
  { apply (Hloop [] (CaptureReturns (Some frame_bad)) [CaptureReturns (Some frame_A)]
             (init load_config)). reflexivity. }
  apply (Hrun three_failures (CaptureReturns (Some frame_bad))
           [CaptureReturns (Some frame_A)] (boot load_config));
    [reflexivity | repeat constructor | reflexivity].
Defined.

(** The same on the running system: three failures of the camera, the
    frame on which the encoder raises, then a good frame.  The counter
    is still 0, no frame is current, [_stop] is not set and the loop
    thread has ended. *)
Example encoder_exception_then_good_frame :
  sample_run (loop_events (three_failures ++ [CaptureReturns (Some frame_bad);
                                              CaptureReturns (Some frame_A)]))
             (boot load_config)
  = {| service := init load_config; loop_pc := LoopExited; sessions := ∅ |}
  /\ _frame_seq (init load_config) = 0
  /\ _stop (init load_config) = false.
Proof. vm_compute. repeat split; reflexivity. Qed.

(** Connection 0 is made while frame A is current; frame B is
    published before its handler runs; its first wait hands it frame B
    with sequence number 2, not the frame that was current when it was
    made. *)
Lemma first_wait_hands_frame_published_after_connection :
  _latest_original (service (sample_run connected_at_A (boot load_config)))
  = Some (b "PA")
  /\ sessions (sample_run connected_at_A (boot load_config)) !! 0%nat
     = Some {| gen := frame_generator; wfile := []; serving := true |}
  /\ sessions (sample_run (connected_at_A ++ then_published_B
                           ++ [Run 0%nat true; Run 0%nat true])
                          (boot load_config)) !! 0%nat
     = Some {| gen := {| last_seq := 2; pc := Suspended |};
               wfile := [chunk_of (b "PB")]; serving := true |}
  /\ chunk_of (b "PB") <> chunk_of (b "PA").
Proof. vm_compute. repeat split; (reflexivity || discriminate). Qed.

(** The connection of [connected_at_A] after the publish of frame B:
    its first delivery, and the two steps that lead to it; and a
    connection made after frame A and served at once. *)
Lemma first_wait_yields_frame_current_when_served_witness :
  (1 <= 2
   /\ 2 = _frame_seq (service (sample_run ((connected_at_A ++ then_published_B)
                                           ++ [Run 0%nat true]) (boot load_config)))
   /\ _latest_original (service (sample_run ((connected_at_A ++ then_published_B)
                                             ++ [Run 0%nat true]) (boot load_config)))
      = Some (b "PB"))
  /\ (exists frame n,
        (1 <= n <= 3)%nat
        /\ _latest_original (service (sample_run (connected_at_A ++ then_published_B)
                                                 (boot load_config))) = Some frame
        /\ 1 <= _frame_seq (service (sample_run (connected_at_A ++ then_published_B)
                                                (boot load_config)))
        /\ sessions (sample_run (replicate n (Run 0%nat true))
                       (sample_run (connected_at_A ++ then_published_B)
                                   (boot load_config))) !! 0%nat
           = Some {| gen := {| last_seq :=
                                 _frame_seq (service (sample_run
                                    (connected_at_A ++ then_published_B)
                                    (boot load_config)));
                               pc := Suspended |};
                     wfile := [chunk_of frame];
                     serving := true |})
  /\ (exists frame,
        _latest_original (service (sample_run
            [LoopCheck; LoopCycle (CaptureReturns (Some frame_A))] (boot load_config)))
        = Some frame
        /\ 1 <= _frame_seq (service (sample_run
            [LoopCheck; LoopCycle (CaptureReturns (Some frame_A))] (boot load_config)))
        /\ critical_section (service (sample_run
            [LoopCheck; LoopCycle (CaptureReturns (Some frame_A))] (boot load_config)))
            (last_seq frame_generator)
           = NewFrame (Some frame) (_frame_seq (service (sample_run
            [LoopCheck; LoopCycle (CaptureReturns (Some frame_A))] (boot load_config))))
        /\ sessions (sample_run [GET 0%nat "/stream"; Run 0%nat true; Run 0%nat true]
                      (sample_run [LoopCheck; LoopCycle (CaptureReturns (Some frame_A))]
                                  (boot load_config))) !! 0%nat
           = Some {| gen := {| last_seq := _frame_seq (service (sample_run
                         [LoopCheck; LoopCycle (CaptureReturns (Some frame_A))]
                         (boot load_config)));
                               pc := Suspended |};
                     wfile := [chunk_of frame];
                     serving := true |}).
Proof.
  split.
  { apply (proj1 (first_wait_yields_frame_current_when_served
                    sample_imencode sample_IMWRITE_JPEG_QUALITY load_config
                    ((connected_at_A ++ then_published_B) ++ [Run 0%nat true]) 0%nat)
                 (Run 0%nat true) (b "PB") 2).
    - vm_compute. reflexivity.
    - vm_compute. reflexivity. }
  split.
  { apply (proj1 (proj2 (first_wait_yields_frame_current_when_served
                    sample_imencode sample_IMWRITE_JPEG_QUALITY load_config
                    (connected_at_A ++ then_published_B) 0%nat))
                 {| gen := frame_generator; wfile := []; serving := true |}).
    - vm_compute. reflexivity.
    - reflexivity.
    - reflexivity.
    - reflexivity.
    - vm_compute. lia. }
  apply (proj2 (proj2 (first_wait_yields_frame_current_when_served
                  sample_imencode sample_IMWRITE_JPEG_QUALITY load_config
                  [LoopCheck; LoopCycle (CaptureReturns (Some frame_A))] 0%nat))).
  - vm_compute. lia.
  - reflexivity.
  - reflexivity.
Defined.
